(** * LinkedIn MCP server: OAuth2 token store, authorization flow and API client

    A shallow embedding of [src/auth.ts] (token store, authorization-code
    flow with a local callback listener), [src/linkedin.ts] (the
    [LinkedInClient] class) and the tool dispatcher of [src/index.ts],
    followed by the properties established about them.

    Conventions of the embedding.
    - JavaScript numbers that the program handles (HTTP status codes,
      millisecond timestamps, second counts, post counts) are integers and
      are modelled by [Z]; a number is printed as its decimal digits, which
      is what JavaScript does for integers of magnitude below [2^53].
    - Strings are byte strings ([string]); text outside ASCII is its UTF-8
      encoding.
    - A field declared optional in a TypeScript interface, or read from a
      parsed JSON body, is an [option]; [None] is JavaScript's [undefined].
    - [async] functions run in a state-and-exception monad.  The state holds
      what the function can observe or change (the client object, the list
      of HTTP requests sent, the clock, the two files, the listener).  The
      remote servers are functions from a request to the outcome of
      [fetch].
    - What the receiving side does with a URL that the program builds (the
      form parser behind [searchParams], the path state of the URL parser)
      is in module [Url]. *)

From Stdlib Require Import ZArith List String Ascii Bool Lia DecimalString.
Import ListNotations.

Set Warnings "-register-all".

Local Open Scope string_scope.
Local Open Scope Z_scope.

(* ================================================================== *)
(** ** JavaScript primitives used by the sources *)

Module JS.

Definition dquote : string := String (ascii_of_nat 34) EmptyString.
Definition newline : string := String (ascii_of_nat 10) EmptyString.

(** [ToBoolean] on a value of type [string | undefined]: the empty string
    and [undefined] are falsy. *)
Definition truthy (v : option string) : bool :=
  match v with
  | Some EmptyString => false
  | Some _ => true
  | None => false
  end.

(** [a || b] on values of type [string | undefined]. *)
Definition or_else (a b : option string) : option string :=
  if truthy a then a else b.

(** [a || "literal"]. *)
Definition or_default (a : option string) (d : string) : string :=
  match a with
  | Some s => if truthy a then s else d
  | None => d
  end.

(** [ToBoolean] on a number: zero is falsy. *)
Definition truthy_num (n : Z) : bool := negb (n =? 0).

(** [String(n)] for an integer [n] of magnitude below [2^53]; beyond it
    JavaScript renders the nearest double, from [1e21] on in exponent
    form, and this function does not. *)
Definition string_of_number (n : Z) : string :=
  NilZero.string_of_int (Z.to_int n).

(** A template literal's rendering of [string | null]. *)
Definition string_of_nullable (v : option string) : string :=
  match v with
  | Some s => s
  | None => "null"
  end.

(** [s.substring(n)]. *)
Definition substring_from (n : nat) (s : string) : string :=
  String.substring n (String.length s - n) s.

(** *** Percent-encoding *)

Definition hex_digit (n : N) : ascii :=
  if (n <? 10)%N then ascii_of_N (48 + n) else ascii_of_N (55 + n).

Definition percent (a : ascii) : string :=
  let n := N_of_ascii a in
  String "%" (String (hex_digit (n / 16)) (String (hex_digit (n mod 16)) EmptyString)).

Definition is_alnum (a : ascii) : bool :=
  let n := N_of_ascii a in
  ((48 <=? n) && (n <=? 57) || (65 <=? n) && (n <=? 90) || (97 <=? n) && (n <=? 122))%N.

Definition mem_ascii (a : ascii) (s : string) : bool :=
  existsb (Ascii.eqb a) (list_ascii_of_string s).

(** [encodeURIComponent]: every byte except the unreserved marks is
    escaped. *)
Fixpoint encodeURIComponent (s : string) : string :=
  match s with
  | EmptyString => EmptyString
  | String a rest =>
      (if is_alnum a || mem_ascii a "-_.!~*'()"
       then String a EmptyString
       else percent a) ++ encodeURIComponent rest
  end.

(** The [application/x-www-form-urlencoded] byte serializer used by
    [URLSearchParams.prototype.toString]. *)
Fixpoint form_encode (s : string) : string :=
  match s with
  | EmptyString => EmptyString
  | String a rest =>
      (if Ascii.eqb a " " then "+"
       else if is_alnum a || mem_ascii a "*-._"
            then String a EmptyString
            else percent a) ++ form_encode rest
  end.

(** [new URLSearchParams(record)]: an ordered list of name/value pairs. *)
Definition URLSearchParams := list (string * string).

(** [params.get(name)]: the first value stored under [name], or [null]. *)
Fixpoint params_get (name : string) (p : URLSearchParams) : option string :=
  match p with
  | [] => None
  | (k, v) :: rest => if String.eqb k name then Some v else params_get name rest
  end.

(** [params.toString()]. *)
Definition params_toString (p : URLSearchParams) : string :=
  String.concat "&" (map (fun kv => form_encode (fst kv) ++ "=" ++ form_encode (snd kv)) p).

(** *** [String.prototype.trim] *)

(** UTF-8 encodings of the code points in WhiteSpace and LineTerminator. *)
Definition white_space : list (list ascii) :=
  map (map ascii_of_nat)
    (List.app
       [ [9]; [10]; [11]; [12]; [13]; [32]; [194; 160]; [225; 154; 128] ]
       (List.app
          (map (fun k => [226; 128; k])
               [128; 129; 130; 131; 132; 133; 134; 135; 136; 137; 138])
          [ [226; 128; 168]; [226; 128; 169]; [226; 128; 175]; [226; 129; 159];
            [227; 128; 128]; [239; 187; 191] ]))%nat.

Fixpoint strip_prefix (p s : list ascii) : option (list ascii) :=
  match p, s with
  | [], _ => Some s
  | a :: p', b :: s' => if Ascii.eqb a b then strip_prefix p' s' else None
  | _ :: _, [] => None
  end.

Fixpoint strip_any (seqs : list (list ascii)) (s : list ascii) : option (list ascii) :=
  match seqs with
  | [] => None
  | p :: more =>
      match strip_prefix p s with
      | Some s' => Some s'
      | None => strip_any more s
      end
  end.

Fixpoint trim_start_fuel (fuel : nat) (seqs : list (list ascii)) (s : list ascii) : list ascii :=
  match fuel with
  | O => s
  | S fuel' =>
      match strip_any seqs s with
      | Some s' => trim_start_fuel fuel' seqs s'
      | None => s
      end
  end.

Definition trim (s : string) : string :=
  let l := list_ascii_of_string s in
  let l1 := trim_start_fuel (List.length l) white_space l in
  let r := rev l1 in
  let r1 := trim_start_fuel (List.length r) (map (@rev ascii) white_space) r in
  string_of_list_ascii (rev r1).

(** ASCII lower-casing, as applied to header names by [Headers]. *)
Definition lower_ascii (a : ascii) : ascii :=
  let n := N_of_ascii a in
  if ((65 <=? n) && (n <=? 90))%N then ascii_of_N (n + 32) else a.

Fixpoint toLowerCase (s : string) : string :=
  match s with
  | EmptyString => EmptyString
  | String a rest => String (lower_ascii a) (toLowerCase rest)
  end.

(** What [JSON.stringify] receives: a JSON tree.  A property whose value
    is [undefined] is not serialized, so it is not in the tree. *)
Inductive json : Type :=
| JNull
| JBool (b : bool)
| JNum (n : Z)
| JStr (s : string)
| JArr (items : list json)
| JObj (fields : list (string * json)).

(** A property that is present only when its value is defined. *)
Definition optional_field (name : string) (v : option string) : list (string * json) :=
  match v with
  | Some s => [(name, JStr s)]
  | None => []
  end.

End JS.

(* ================================================================== *)
(** ** Exceptions and the state-and-exception monad *)

(** What a [throw] or a rejected promise carries. *)
Inductive exn : Type :=
| Error (message : string)   (* [new Error(message)] *)
| FetchError                 (* [fetch] rejected: no response was received *)
| JsonSyntaxError            (* [response.json()] rejected *)
| InvalidUrlError            (* [new URL(...)] threw *)
| DestructuringError.        (* destructuring [undefined] threw *)

(** How the evaluation of an [async] function ends.  [Hang] is an [await]
    on a promise that nothing settles. *)
Inductive result (A : Type) : Type :=
| Ok (a : A)
| Throw (e : exn)
| Hang.

Arguments Ok {A} a.
Arguments Throw {A} e.
Arguments Hang {A}.

Definition M (S A : Type) : Type := S -> result A * S.

Definition ret {S A} (a : A) : M S A := fun s => (Ok a, s).

Definition bind {S A B} (m : M S A) (k : A -> M S B) : M S B :=
  fun s =>
    match m s with
    | (Ok a, s') => k a s'
    | (Throw e, s') => (Throw e, s')
    | (Hang, s') => (Hang, s')
    end.

Definition throw {S A} (e : exn) : M S A := fun s => (Throw e, s).

(** [try { m } catch (error) { h error }]. *)
Definition try_catch {S A} (m : M S A) (h : exn -> M S A) : M S A :=
  fun s =>
    match m s with
    | (Throw e, s') => h e s'
    | other => other
    end.

Definition gets {S A} (f : S -> A) : M S A := fun s => (Ok (f s), s).
Definition modify {S} (f : S -> S) : M S unit := fun s => (Ok tt, f s).

Declare Scope js_scope.
Delimit Scope js_scope with js.
Notation "x <- m ;; k" := (bind m (fun x => k))
  (at level 100, m at next level, right associativity) : js_scope.
Notation "m ;;; k" := (bind m (fun _ => k))
  (at level 100, right associativity) : js_scope.

(** A [try] block from which the function may [return]: [Some v] is
    [return v] inside the block, [None] is reaching the end of the
    statement, either normally or through the empty [catch]. *)
Definition attempt {S A} (block : M S (option A)) : M S (option A) :=
  try_catch block (fun _ => ret None).

(* ================================================================== *)
(** ** HTTP as seen through [fetch] *)

Module Http.

(** A request body: the value handed to [JSON.stringify], or a string
    that was built by the caller. *)
Inductive Payload : Type :=
| JsonBody (j : JS.json)
| TextBody (s : string).

Record Request : Type := {
  url : string;
  method : string;
  headers : list (string * string);
  body : option Payload
}.

(** The fields of a parsed JSON body that the program reads, each
    [undefined] when the body has no such property. *)
Record Paging : Type := { total : option Z }.

Record Data : Type := {
  sub : option string;
  id : option string;
  name : option string;
  given_name : option string;
  family_name : option string;
  picture : option string;
  email : option string;
  email_verified : option bool;
  localizedFirstName : option string;
  localizedLastName : option string;
  elements : option (list JS.json);
  paging : option Paging
}.

(** A received response.  [text] is the body as [response.text()] yields
    it; [json] is what [response.json()] yields, [None] when the body is
    not JSON and the call rejects. *)
Record Response (B : Type) : Type := {
  status : Z;
  response_headers : list (string * string);
  text : string;
  json : option B
}.

Arguments status {B} r.
Arguments response_headers {B} r.
Arguments text {B} r.
Arguments json {B} r.

Inductive Outcome (B : Type) : Type :=
| NetworkError
| Responded (r : Response B).

Arguments NetworkError {B}.
Arguments Responded {B} r.

(** [response.ok]. *)
Definition ok {B} (r : Response B) : bool :=
  (200 <=? status r) && (status r <=? 299).

(** [response.headers.get(name)]: header names compare without case, and
    the values of a repeated header are joined. *)
Definition headers_get {B} (name : string) (r : Response B) : option string :=
  match filter (fun kv => String.eqb (JS.toLowerCase (fst kv)) (JS.toLowerCase name))
               (response_headers r) with
  | [] => None
  | found => Some (String.concat ", " (map snd found))
  end.

End Http.

(* ================================================================== *)
(** ** [auth.ts]: token store and authorization flow *)

Module Auth.

Definition LINKEDIN_AUTH_URL : string := "https://www.linkedin.com/oauth/v2/authorization".
Definition LINKEDIN_TOKEN_URL : string := "https://www.linkedin.com/oauth/v2/accessToken".

Definition SCOPES : list string := ["openid"; "profile"; "email"; "w_member_social"].

Record Credentials : Type := {
  client_id : string;
  client_secret : string;
  redirect_uri : option string
}.

Record TokenData : Type := {
  access_token : string;
  expires_in : Z;
  expires_at : Z;
  scope : option string;
  token_type : option string;
  id_token : option string;
  sub : option string;
  name : option string;
  email : option string
}.

(** The JSON object answered by the token endpoint, read through the
    properties of [TokenData]; it has no [expires_at] of its own that
    survives [exchangeCodeForToken]. *)
Record TokenJson : Type := {
  json_access_token : string;
  json_expires_in : Z;
  json_scope : option string;
  json_token_type : option string;
  json_id_token : option string;
  json_sub : option string;
  json_name : option string;
  json_email : option string
}.

(** A file of the configuration directory: missing, present but not
    readable as JSON, or holding a record. *)
Inductive File (A : Type) : Type :=
| Absent
| Unreadable
| Holds (a : A).

Arguments Absent {A}.
Arguments Unreadable {A}.
Arguments Holds {A} a.

(** *** The callback listener *)

(** The promise that [authenticateInteractive] awaits. *)
Inductive Settlement : Type :=
| Pending
| Resolved (code : string)
| Rejected (e : exn).

Record Reply : Type := {
  reply_status : Z;
  reply_content_type : string;
  reply_body : string
}.

(** The [http.Server] together with the promise its handler settles.
    [listening] is cleared by [server.close()]. *)
Record Listener : Type := {
  bound_host : string;
  bound_port : Z;
  listening : bool;
  flow : Settlement;
  replies : list Reply
}.

(** [new URL(req.url, base)] as the handler sees it: the constructor
    throws (for instance on the request target [//], which has an empty
    host), or yields a path and query parameters. *)
Inductive Incoming : Type :=
| BadTarget
| Target (pathname : string) (searchParams : JS.URLSearchParams).

(** [new URL(redirectUri)]: the parts the flow reads.  [port] is [None]
    for an empty port string. *)
Record UrlParts : Type := {
  hostname : string;
  port : option Z;
  pathname_of : string
}.

(** The state that the module reads and writes. *)
Record World : Type := {
  now : Z;                                (* [Date.now()] *)
  credentials_file : File Credentials;
  token_file : File TokenData;
  sent : list Http.Request;               (* requests issued, oldest first *)
  listener : option Listener;
  browser : list string                   (* URLs handed to [open] *)
}.

(** What is outside the process. *)
Record Env : Type := {
  CONFIG_DIR : string;                    (* [path.join(home, ".linkedin-mcp")] *)
  token_server : Http.Request -> Http.Outcome TokenJson;
  api_server : Http.Request -> Http.Outcome Http.Data;
  latency : Http.Request -> Z;            (* time a [fetch] takes *)
  consent_delay : Z;                      (* time until the promise settles *)
  random36 : string;                      (* [Math.random().toString(36)] *)
  parse_url : string -> option UrlParts;  (* [new URL(s)], [None] if it throws *)
  incoming : list Incoming                (* requests reaching the listener *)
}.

Definition set_sent (w : World) (l : list Http.Request) (t : Z) : World :=
  {| now := t; credentials_file := credentials_file w; token_file := token_file w;
     sent := l; listener := listener w; browser := browser w |}.

Definition set_token_file (w : World) (f : File TokenData) : World :=
  {| now := now w; credentials_file := credentials_file w; token_file := f;
     sent := sent w; listener := listener w; browser := browser w |}.

Definition set_listener (w : World) (l : Listener) (opened : string) (t : Z) : World :=
  {| now := t; credentials_file := credentials_file w; token_file := token_file w;
     sent := sent w; listener := Some l; browser := (browser w ++ [opened])%list |}.

(** What a [fetch] leaves alone. *)
Definition same_files (w w' : World) : Prop :=
  credentials_file w' = credentials_file w
  /\ token_file w' = token_file w
  /\ listener w' = listener w
  /\ browser w' = browser w.

(** *** Token store *)

Definition loadCredentials (w : World) : option Credentials :=
  match credentials_file w with
  | Holds c => Some c
  | Unreadable => None      (* the [catch] logs and falls through *)
  | Absent => None
  end.

Definition loadToken (w : World) : option TokenData :=
  match token_file w with
  | Holds t => Some t
  | Unreadable => None
  | Absent => None
  end.

Definition saveToken (token : TokenData) : M World unit :=
  modify (fun w => set_token_file w (Holds token)).

Definition isAuthenticated (w : World) : bool :=
  match loadToken w with
  | None => false
  | Some token =>
      if JS.truthy_num (expires_at token) && (now w >=? expires_at token)
      then false
      else true
  end.

Definition getAccessToken (w : World) : option string :=
  match loadToken w with
  | None => None
  | Some token =>
      if JS.truthy_num (expires_at token) && (now w >=? expires_at token)
      then None
      else Some (access_token token)
  end.

Record UserInfo : Type := {
  info_sub : option string;
  info_name : option string;
  info_email : option string
}.

Definition getUserInfo (w : World) : option UserInfo :=
  match loadToken w with
  | None => None
  | Some token =>
      Some {| info_sub := sub token; info_name := name token; info_email := email token |}
  end.

(** *** The authorization flow *)

Section Flow.

Variable env : Env.

Definition TOKEN_PATH : string := CONFIG_DIR env ++ "/token.json".
Definition CREDENTIALS_PATH : string := CONFIG_DIR env ++ "/credentials.json".

(** [await fetch(...)] against the token endpoint and against the API:
    the request is recorded, the clock advances, and the call either
    rejects or yields the response. *)
Definition fetch_token (req : Http.Request) : M World (Http.Response TokenJson) :=
  fun w =>
    let w' := set_sent w (sent w ++ [req])%list (now w + latency env req) in
    match token_server env req with
    | Http.NetworkError => (Throw FetchError, w')
    | Http.Responded r => (Ok r, w')
    end.

Definition fetch (req : Http.Request) : M World (Http.Response Http.Data) :=
  fun w =>
    let w' := set_sent w (sent w ++ [req])%list (now w + latency env req) in
    match api_server env req with
    | Http.NetworkError => (Throw FetchError, w')
    | Http.Responded r => (Ok r, w')
    end.

(** [await response.json()]. *)
Definition json_of {B} (r : Http.Response B) : M World B :=
  match Http.json r with
  | Some d => ret d
  | None => throw JsonSyntaxError
  end.

Definition token_request (code : string) (credentials : Credentials)
           (redirectUri : string) : Http.Request :=
  let params : JS.URLSearchParams :=
    [ ("grant_type", "authorization_code");
      ("code", code);
      ("client_id", client_id credentials);
      ("client_secret", client_secret credentials);
      ("redirect_uri", redirectUri) ] in
  {| Http.url := LINKEDIN_TOKEN_URL;
     Http.method := "POST";
     Http.headers := [("Content-Type", "application/x-www-form-urlencoded")];
     Http.body := Some (Http.TextBody (JS.params_toString params)) |}.

Definition exchangeCodeForToken (code : string) (credentials : Credentials)
           (redirectUri : string) : M World TokenData :=
  (response <- fetch_token (token_request code credentials redirectUri) ;;
   if negb (Http.ok response) then
     throw (Error ("Token exchange failed: " ++ Http.text response))
   else
     tokenData <- json_of response ;;
     t <- gets now ;;
     let expiresAt := t + json_expires_in tokenData * 1000 in
     ret {| access_token := json_access_token tokenData;
            expires_in := json_expires_in tokenData;
            expires_at := expiresAt;
            scope := json_scope tokenData;
            token_type := json_token_type tokenData;
            id_token := json_id_token tokenData;
            sub := json_sub tokenData;
            name := json_name tokenData;
            email := json_email tokenData |})%js.

Definition userinfo_request (accessToken : string) : Http.Request :=
  {| Http.url := "https://api.linkedin.com/v2/userinfo";
     Http.method := "GET";
     Http.headers := [("Authorization", "Bearer " ++ accessToken)];
     Http.body := None |}.

Definition rest_me_request (accessToken : string) : Http.Request :=
  {| Http.url := "https://api.linkedin.com/rest/me";
     Http.method := "GET";
     Http.headers := [("Authorization", "Bearer " ++ accessToken);
                      ("LinkedIn-Version", "202401")];
     Http.body := None |}.

Definition no_info : UserInfo :=
  {| info_sub := None; info_name := None; info_email := None |}.

Definition fetchUserInfo (accessToken : string) : M World UserInfo :=
  (first <- attempt
     (response <- fetch (userinfo_request accessToken) ;;
      if Http.ok response then
        data <- json_of response ;;
        ret (Some {| info_sub := Http.sub data;
                     info_name := Http.name data;
                     info_email := Http.email data |})
      else ret None) ;;
   match first with
   | Some info => ret info
   | None =>
       second <- attempt
         (response <- fetch (rest_me_request accessToken) ;;
          if Http.ok response then
            data <- json_of response ;;
            ret (Some {| info_sub := JS.or_else (Http.sub data) (Http.id data);
                         info_name := JS.or_else (Http.name data)
                                                 (Http.localizedFirstName data);
                         info_email := None |})
          else ret None) ;;
       match second with
       | Some info => ret info
       | None => ret no_info
       end
   end)%js.

(** The promise settles once; later calls of [resolve] or [reject] do
    nothing. *)
Definition settle (l : Listener) (s : Settlement) : Listener :=
  {| bound_host := bound_host l; bound_port := bound_port l;
     listening := listening l;
     flow := match flow l with Pending => s | settled => settled end;
     replies := replies l |}.

(** [res.writeHead(status, {"Content-Type": "text/html"}); res.end(body)]. *)
Definition respond (l : Listener) (status : Z) (body : string) : Listener :=
  {| bound_host := bound_host l; bound_port := bound_port l;
     listening := listening l; flow := flow l;
     replies := (replies l ++ [{| reply_status := status;
                                  reply_content_type := "text/html";
                                  reply_body := body |}])%list |}.

(** [server.close()]. *)
Definition close (l : Listener) : Listener :=
  {| bound_host := bound_host l; bound_port := bound_port l;
     listening := false; flow := flow l; replies := replies l |}.

(** The request handler passed to [http.createServer]. *)
Definition handler (callbackPath : string) (req : Incoming) (l : Listener) : Listener :=
  match req with
  | BadTarget => settle l (Rejected InvalidUrlError)      (* [catch (error)] *)
  | Target pathname searchParams =>
      if String.eqb pathname callbackPath then
        let code := JS.params_get "code" searchParams in
        let error := JS.params_get "error" searchParams in
        if JS.truthy error then
          let l1 := respond l 400
            ("<html><body><h1>Error</h1><p>" ++ JS.string_of_nullable error ++ ": "
             ++ JS.string_of_nullable (JS.params_get "error_description" searchParams)
             ++ "</p></body></html>") in
          settle l1 (Rejected (Error ("OAuth error: " ++ JS.string_of_nullable error)))
        else if JS.truthy code then
          let l1 := respond l 200
            "<html><body><h1>Authentication successful!</h1><p>You can close this window and return to the terminal.</p></body></html>" in
          let l2 := close l1 in
          settle l2 (Resolved (JS.string_of_nullable code))
        else
          let l1 := respond l 400
            "<html><body><h1>Error</h1><p>No authorization code received.</p></body></html>" in
          settle l1 (Rejected (Error "No authorization code received"))
      else l
  end.

(** Whether the handler's path test lets a request through. *)
Definition matches_path (callbackPath : string) (req : Incoming) : bool :=
  match req with
  | BadTarget => false
  | Target pathname _ => String.eqb pathname callbackPath
  end.

(** The listener handles the requests that arrive while the flow is
    suspended on the promise and the server accepts connections. *)
Fixpoint serve (callbackPath : string) (reqs : list Incoming) (l : Listener) : Listener :=
  match reqs with
  | [] => l
  | req :: more =>
      match flow l with
      | Pending =>
          if listening l then serve callbackPath more (handler callbackPath req l) else l
      | _ => l
      end
  end.

(** The query parameters of the authorization URL. *)
Definition authParams (credentials : Credentials) (redirectUri : string) : JS.URLSearchParams :=
  [ ("response_type", "code");
    ("client_id", client_id credentials);
    ("redirect_uri", redirectUri);
    ("scope", String.concat " " SCOPES);
    ("state", JS.substring_from 7 (random36 env)) ].

Definition authUrl (credentials : Credentials) (redirectUri : string) : string :=
  LINKEDIN_AUTH_URL ++ "?" ++ JS.params_toString (authParams credentials redirectUri).

Definition redirectUri_of (credentials : Credentials) : string :=
  JS.or_default (redirect_uri credentials) "http://127.0.0.1:3000/callback".

(** [parseInt(parsedRedirectUri.port) || 3000]. *)
Definition callbackPort_of (parsed : UrlParts) : Z :=
  match port parsed with
  | Some p => if JS.truthy_num p then p else 3000
  | None => 3000
  end.

Definition callbackPath_of (parsed : UrlParts) : string :=
  JS.or_default (Some (pathname_of parsed)) "/callback".

Definition callbackHost_of (parsed : UrlParts) : string :=
  JS.or_default (Some (hostname parsed)) "127.0.0.1".

(** [await new Promise((resolve, reject) => { ... })]: the server is
    created and bound, the browser is opened, and the flow waits. *)
Definition createServer (callbackHost : string) (callbackPort : Z) : Listener :=
  {| bound_host := callbackHost; bound_port := callbackPort;
     listening := true; flow := Pending; replies := [] |}.

Definition await_code (callbackHost : string) (callbackPort : Z) (callbackPath : string)
           (url : string) : M World string :=
  fun w =>
    let server := createServer callbackHost callbackPort in
    let server' := serve callbackPath (incoming env) server in
    let w' := set_listener w server' url (now w + consent_delay env) in
    match flow server' with
    | Resolved code => (Ok code, w')
    | Rejected e => (Throw e, w')
    | Pending => (Hang, w')
    end.

Definition credentials_missing : string :=
  "Credentials not found. Please create " ++ CREDENTIALS_PATH
  ++ " with your LinkedIn OAuth credentials." ++ JS.newline ++ JS.newline
  ++ "Example:" ++ JS.newline
  ++ "{" ++ JS.newline
  ++ "  " ++ JS.dquote ++ "client_id" ++ JS.dquote ++ ": "
  ++ JS.dquote ++ "your_client_id" ++ JS.dquote ++ "," ++ JS.newline
  ++ "  " ++ JS.dquote ++ "client_secret" ++ JS.dquote ++ ": "
  ++ JS.dquote ++ "your_client_secret" ++ JS.dquote ++ JS.newline
  ++ "}".

Definition authenticateInteractive : M World TokenData :=
  (credentials <- gets loadCredentials ;;
   match credentials with
   | None => throw (Error credentials_missing)
   | Some credentials =>
       let redirectUri := redirectUri_of credentials in
       match parse_url env redirectUri with
       | None => throw InvalidUrlError
       | Some parsedRedirectUri =>
           let callbackPort := callbackPort_of parsedRedirectUri in
           let callbackPath := callbackPath_of parsedRedirectUri in
           let callbackHost := callbackHost_of parsedRedirectUri in
           code <- await_code callbackHost callbackPort callbackPath
                              (authUrl credentials redirectUri) ;;
           tokenData <- exchangeCodeForToken code credentials redirectUri ;;
           userInfo <- fetchUserInfo (access_token tokenData) ;;
           let tokenData :=
             {| access_token := access_token tokenData;
                expires_in := expires_in tokenData;
                expires_at := expires_at tokenData;
                scope := scope tokenData;
                token_type := token_type tokenData;
                id_token := id_token tokenData;
                sub := info_sub userInfo;
                name := info_name userInfo;
                email := info_email userInfo |} in
           saveToken tokenData ;;;
           ret tokenData
       end
   end)%js.

End Flow.

End Auth.

(* ================================================================== *)
(** ** [linkedin.ts]: the API client *)

Module Client.

Definition LINKEDIN_API_URL : string := "https://api.linkedin.com".

Record PostResult : Type := {
  success : bool;
  id : option string;
  message : option string
}.

Record Profile : Type := {
  sub : option string;
  name : option string;
  given_name : option string;
  family_name : option string;
  picture : option string;
  email : option string;
  email_verified : option bool
}.

(** The result types that the class declares inline. *)
Record PostsResult : Type := {
  posts : list JS.json;
  posts_message : option string
}.

Record DeleteResult : Type := {
  deleted : bool;                 (* the property [success] *)
  delete_message : option string
}.

(** [count: number | string]. *)
Inductive Count : Type :=
| CountNumber (n : Z)
| CountString (s : string).

Record ConnectionsResult : Type := {
  count : Count;
  count_message : option string
}.

Inductive Visibility : Type := PUBLIC | CONNECTIONS | LOGGED_IN.

Definition visibility_string (v : Visibility) : string :=
  match v with
  | PUBLIC => "PUBLIC"
  | CONNECTIONS => "CONNECTIONS"
  | LOGGED_IN => "LOGGED_IN"
  end.

(** The object: its two private fields. *)
Record LinkedInClient : Type := {
  accessToken : string;
  memberUrn : option string       (* [string | null] *)
}.

(** [new LinkedInClient(accessToken)]. *)
Definition constructor (token : string) : LinkedInClient :=
  {| accessToken := token; memberUrn := None |}.

(** The state of a method call: the object and the requests sent so far,
    oldest first. *)
Record State : Type := {
  this : LinkedInClient;
  sent : list Http.Request
}.

Definition getHeaders (token : string) (version : bool) : list (string * string) :=
  let bearer := "Bearer " ++ token in
  ([ ("Authorization", bearer);
     ("Content-Type", "application/json");
     ("X-Restli-Protocol-Version", "2.0.0") ]
   ++ (if version then [("LinkedIn-Version", "202401")] else []))%list.

(** The state once one more request has gone out. *)
Definition after_request (s : State) (req : Http.Request) : State :=
  {| this := this s; sent := (sent s ++ [req])%list |}.

(** The state once the member URN has been cached. *)
Definition remember (s : State) (urn : string) : State :=
  {| this := {| accessToken := accessToken (this s); memberUrn := Some urn |};
     sent := sent s |}.

Section Methods.

(** The platform's servers. *)
Variable net : Http.Request -> Http.Outcome Http.Data.

Definition fetch (req : Http.Request) : M State (Http.Response Http.Data) :=
  fun s =>
    let s' := after_request s req in
    match net req with
    | Http.NetworkError => (Throw FetchError, s')
    | Http.Responded r => (Ok r, s')
    end.

Definition json_of (r : Http.Response Http.Data) : M State Http.Data :=
  match Http.json r with
  | Some d => ret d
  | None => throw JsonSyntaxError
  end.

Definition set_memberUrn (urn : string) : M State unit :=
  modify (fun s => remember s urn).

(** *** Requests *)

Definition get (path : string) (hdrs : list (string * string)) : Http.Request :=
  {| Http.url := LINKEDIN_API_URL ++ path;
     Http.method := "GET";
     Http.headers := hdrs;
     Http.body := None |}.

Definition rest_me_request (token : string) : Http.Request :=
  get "/rest/me" (getHeaders token true).

Definition userinfo_request (token : string) : Http.Request :=
  get "/v2/userinfo" [("Authorization", "Bearer " ++ token)].

Definition v2_me_request (token : string) : Http.Request :=
  get "/v2/me" (getHeaders token false).

Definition distribution : JS.json :=
  JS.JObj [ ("feedDistribution", JS.JStr "MAIN_FEED");
            ("targetEntities", JS.JArr []);
            ("thirdPartyDistributionChannels", JS.JArr []) ].

Definition postData (urn text : string) (visibility : Visibility) : JS.json :=
  JS.JObj [ ("author", JS.JStr urn);
            ("commentary", JS.JStr text);
            ("visibility", JS.JStr (visibility_string visibility));
            ("distribution", distribution);
            ("lifecycleState", JS.JStr "PUBLISHED");
            ("isReshareDisabledByAuthor", JS.JBool false) ].

Definition legacyPostData (urn text : string) (visibility : Visibility) : JS.json :=
  JS.JObj [ ("author", JS.JStr urn);
            ("lifecycleState", JS.JStr "PUBLISHED");
            ("specificContent",
              JS.JObj [ ("com.linkedin.ugc.ShareContent",
                          JS.JObj [ ("shareCommentary", JS.JObj [("text", JS.JStr text)]);
                                    ("shareMediaCategory", JS.JStr "NONE") ]) ]);
            ("visibility",
              JS.JObj [ ("com.linkedin.ugc.MemberNetworkVisibility",
                          JS.JStr (visibility_string visibility)) ]) ].

Definition articlePostData (urn text articleUrl : string) (title description : option string)
           (visibility : Visibility) : JS.json :=
  JS.JObj [ ("author", JS.JStr urn);
            ("commentary", JS.JStr text);
            ("visibility", JS.JStr (visibility_string visibility));
            ("distribution", distribution);
            ("content",
              JS.JObj [ ("article",
                          JS.JObj ([("source", JS.JStr articleUrl)]
                                   ++ JS.optional_field "title" title
                                   ++ JS.optional_field "description" description)%list) ]);
            ("lifecycleState", JS.JStr "PUBLISHED");
            ("isReshareDisabledByAuthor", JS.JBool false) ].

(** [if (title) mediaItem.title = { text: title }]. *)
Definition text_object (name : string) (v : option string) : list (string * JS.json) :=
  match v with
  | Some s => if JS.truthy v then [(name, JS.JObj [("text", JS.JStr s)])] else []
  | None => []
  end.

Definition mediaItem (articleUrl : string) (title description : option string) : JS.json :=
  JS.JObj ([ ("status", JS.JStr "READY"); ("originalUrl", JS.JStr articleUrl) ]
           ++ text_object "title" title
           ++ text_object "description" description)%list.

Definition legacyArticlePostData (urn text articleUrl : string)
           (title description : option string) (visibility : Visibility) : JS.json :=
  JS.JObj [ ("author", JS.JStr urn);
            ("lifecycleState", JS.JStr "PUBLISHED");
            ("specificContent",
              JS.JObj [ ("com.linkedin.ugc.ShareContent",
                          JS.JObj [ ("shareCommentary", JS.JObj [("text", JS.JStr text)]);
                                    ("shareMediaCategory", JS.JStr "ARTICLE");
                                    ("media", JS.JArr [mediaItem articleUrl title description]) ]) ]);
            ("visibility",
              JS.JObj [ ("com.linkedin.ugc.MemberNetworkVisibility",
                          JS.JStr (visibility_string visibility)) ]) ].

Definition post (token : string) (path : string) (version : bool) (payload : JS.json)
  : Http.Request :=
  {| Http.url := LINKEDIN_API_URL ++ path;
     Http.method := "POST";
     Http.headers := getHeaders token version;
     Http.body := Some (Http.JsonBody payload) |}.

Definition delete (token : string) (path : string) (version : bool) : Http.Request :=
  {| Http.url := LINKEDIN_API_URL ++ path;
     Http.method := "DELETE";
     Http.headers := getHeaders token version;
     Http.body := None |}.

Definition rest_posts_request (token : string) (payload : JS.json) : Http.Request :=
  post token "/rest/posts" true payload.

Definition ugcPosts_request (token : string) (payload : JS.json) : Http.Request :=
  post token "/v2/ugcPosts" false payload.

Definition rest_delete_request (token postId : string) : Http.Request :=
  delete token ("/rest/posts/" ++ JS.encodeURIComponent postId) true.

Definition ugc_delete_request (token postId : string) : Http.Request :=
  delete token ("/v2/ugcPosts/" ++ JS.encodeURIComponent postId) false.

Definition ugc_query_request (token urn : string) (n : Z) : Http.Request :=
  get ("/v2/ugcPosts?q=authors&authors=List(" ++ JS.encodeURIComponent urn
             ++ ")&count=" ++ JS.string_of_number n)
      (getHeaders token false).

Definition connections_request (token : string) : Http.Request :=
  get "/v2/connections?q=viewer&start=0&count=0" (getHeaders token false).

(** *** Methods *)

Definition token_of : M State string := gets (fun s => accessToken (this s)).

(** One of the three [try] blocks of [getMemberUrn]: the block returns
    from the method only for a response that is [ok] and whose body has
    a truthy identifier. *)
Definition identity_probe (req : Http.Request) (field : Http.Data -> option string)
  : M State (option string) :=
  attempt
    (response <- fetch req ;;
     if Http.ok response then
       data <- json_of response ;;
       if JS.truthy (field data) then
         let urn := "urn:li:person:" ++ JS.string_of_nullable (field data) in
         set_memberUrn urn ;;;
         ret (Some urn)
       else ret None
     else ret None)%js.

Definition unable_to_determine : string :=
  "Unable to determine member URN. Please ensure you have 'Sign In with LinkedIn using OpenID Connect' product enabled in your LinkedIn app.".

Definition getMemberUrn : M State string :=
  (cached <- gets (fun s => memberUrn (this s)) ;;
   if JS.truthy cached then ret (JS.string_of_nullable cached)
   else
     token <- token_of ;;
     first <- identity_probe (rest_me_request token) Http.sub ;;
     match first with
     | Some urn => ret urn
     | None =>
         second <- identity_probe (userinfo_request token) Http.sub ;;
         match second with
         | Some urn => ret urn
         | None =>
             third <- identity_probe (v2_me_request token) Http.id ;;
             match third with
             | Some urn => ret urn
             | None => throw (Error unable_to_determine)
             end
         end
     end)%js.

(** [return await response.json()] typed as [Profile]. *)
Definition profile_of_userinfo (data : Http.Data) : Profile :=
  {| sub := Http.sub data; name := Http.name data;
     given_name := Http.given_name data; family_name := Http.family_name data;
     picture := Http.picture data; email := Http.email data;
     email_verified := Http.email_verified data |}.

Definition profile_of_rest_me (data : Http.Data) : Profile :=
  {| sub := JS.or_else (Http.sub data) (Http.id data);
     name := JS.or_else (Http.name data) (Http.localizedFirstName data);
     given_name := None; family_name := None;
     picture := None; email := None; email_verified := None |}.

Definition profile_of_v2_me (data : Http.Data) : Profile :=
  {| sub := Http.id data;
     name := Some (JS.trim (JS.or_default (Http.localizedFirstName data) EmptyString
                            ++ " "
                            ++ JS.or_default (Http.localizedLastName data) EmptyString));
     given_name := Http.localizedFirstName data;
     family_name := Http.localizedLastName data;
     picture := None; email := None; email_verified := None |}.

Definition profile_probe (req : Http.Request) (mapper : Http.Data -> Profile)
  : M State (option Profile) :=
  attempt
    (response <- fetch req ;;
     if Http.ok response then
       data <- json_of response ;;
       ret (Some (mapper data))
     else ret None)%js.

Definition getProfile : M State Profile :=
  (token <- token_of ;;
   first <- profile_probe (userinfo_request token) profile_of_userinfo ;;
   match first with
   | Some profile => ret profile
   | None =>
       second <- profile_probe (rest_me_request token) profile_of_rest_me ;;
       match second with
       | Some profile => ret profile
       | None =>
           response <- fetch (v2_me_request token) ;;
           if Http.ok response then
             data <- json_of response ;;
             ret (profile_of_v2_me data)
           else throw (Error "Failed to fetch profile")
       end
   end)%js.

(** [{ success: true, id: postId }] with the identifier of the header. *)
Definition created_from_header (response : Http.Response Http.Data) : PostResult :=
  let postId := JS.or_default (Http.headers_get "x-restli-id" response) "created" in
  {| success := true; id := Some postId; message := None |}.

(** [{ success: true, id: data.id }]. *)
Definition created_from_body (data : Http.Data) : PostResult :=
  {| success := true; id := Http.id data; message := None |}.

Definition createPost (text : string) (visibility : Visibility) : M State PostResult :=
  (urn <- getMemberUrn ;;
   token <- token_of ;;
   response <- fetch (rest_posts_request token (postData urn text visibility)) ;;
   if Http.ok response || (Http.status response =? 201) then
     ret (created_from_header response)
   else
     response <- fetch (ugcPosts_request token (legacyPostData urn text visibility)) ;;
     if Http.ok response || (Http.status response =? 201) then
       data <- json_of response ;;
       ret (created_from_body data)
     else
       let errorText := Http.text response in
       throw (Error ("Failed to create post: " ++ JS.string_of_number (Http.status response)
                     ++ " - " ++ errorText)))%js.

Definition createArticlePost (text articleUrl : string) (title description : option string)
           (visibility : Visibility) : M State PostResult :=
  (urn <- getMemberUrn ;;
   token <- token_of ;;
   response <- fetch (rest_posts_request token
                        (articlePostData urn text articleUrl title description visibility)) ;;
   if Http.ok response || (Http.status response =? 201) then
     ret (created_from_header response)
   else
     response <- fetch (ugcPosts_request token
                          (legacyArticlePostData urn text articleUrl title description
                                                 visibility)) ;;
     if Http.ok response || (Http.status response =? 201) then
       data <- json_of response ;;
       ret (created_from_body data)
     else
       let errorText := Http.text response in
       throw (Error ("Failed to create article post: "
                     ++ JS.string_of_number (Http.status response)
                     ++ " - " ++ errorText)))%js.

Definition posts_unavailable : PostsResult :=
  {| posts := [];
     posts_message :=
       Some "Unable to fetch posts. This may require additional LinkedIn API permissions." |}.

(** [{ posts: data.elements || [] }]. *)
Definition posts_of (data : Http.Data) : PostsResult :=
  {| posts := match Http.elements data with Some l => l | None => [] end;
     posts_message := None |}.

Definition getPosts (n : Z) : M State PostsResult :=
  (urn <- getMemberUrn ;;
   token <- token_of ;;
   response <- fetch (ugc_query_request token urn n) ;;
   if Http.ok response then
     data <- json_of response ;;
     ret (posts_of data)
   else ret posts_unavailable)%js.

Definition deletePost (postId : string) : M State DeleteResult :=
  (token <- token_of ;;
   response <- fetch (rest_delete_request token postId) ;;
   if Http.ok response || (Http.status response =? 204) then
     ret {| deleted := true; delete_message := None |}
   else
     response <- fetch (ugc_delete_request token postId) ;;
     if Http.ok response || (Http.status response =? 204) then
       ret {| deleted := true; delete_message := None |}
     else
       ret {| deleted := false;
              delete_message :=
                Some ("Failed to delete post: "
                      ++ JS.string_of_number (Http.status response)) |})%js.

Definition connections_unavailable : ConnectionsResult :=
  {| count := CountString "unavailable";
     count_message := Some "Connection count may require additional permissions." |}.

(** [{ count: data.paging?.total || 0 }]. *)
Definition count_of (data : Http.Data) : ConnectionsResult :=
  {| count :=
       CountNumber
         match Http.paging data with
         | Some p =>
             match Http.total p with
             | Some n => if JS.truthy_num n then n else 0
             | None => 0
             end
         | None => 0
         end;
     count_message := None |}.

Definition getConnectionsCount : M State ConnectionsResult :=
  (token <- token_of ;;
   response <- fetch (connections_request token) ;;
   if Http.ok response then
     data <- json_of response ;;
     ret (count_of data)
   else ret connections_unavailable)%js.

(** *** The operations as one family *)

Inductive Operation : Type :=
| GetMemberUrn
| GetProfile
| CreatePost (text : string) (visibility : Visibility)
| CreateArticlePost (text articleUrl : string) (title description : option string)
                    (visibility : Visibility)
| GetPosts (n : Z)
| DeletePost (postId : string)
| GetConnectionsCount.

Inductive Value : Type :=
| UrnValue (urn : string)
| ProfileValue (p : Profile)
| PostValue (r : PostResult)
| PostsValue (r : PostsResult)
| DeleteValue (r : DeleteResult)
| ConnectionsValue (r : ConnectionsResult).

Definition lift {A} (inj : A -> Value) (m : M State A) : M State Value :=
  (a <- m ;; ret (inj a))%js.

(** Calling the method that implements an operation. *)
Definition perform (op : Operation) : M State Value :=
  match op with
  | GetMemberUrn => lift UrnValue getMemberUrn
  | GetProfile => lift ProfileValue getProfile
  | CreatePost text visibility => lift PostValue (createPost text visibility)
  | CreateArticlePost text articleUrl title description visibility =>
      lift PostValue (createArticlePost text articleUrl title description visibility)
  | GetPosts n => lift PostsValue (getPosts n)
  | DeletePost postId => lift DeleteValue (deletePost postId)
  | GetConnectionsCount => lift ConnectionsValue getConnectionsCount
  end.

(** The three operations that start with [await this.getMemberUrn()]. *)
Definition needs_identity (op : Operation) : bool :=
  match op with
  | CreatePost _ _ | CreateArticlePost _ _ _ _ _ | GetPosts _ => true
  | _ => false
  end.

End Methods.

(** *** The fallback chains as the design describes them

    Section 4.3 of the design defines every operation as an ordered list
    of candidates, a candidate being a request descriptor with a
    response-to-result mapper.  [candidates] writes that list down for
    each operation, in the order of section 4.3; it is the description
    against which the methods above are compared.  [guarded] records
    whether the method wraps the candidate in [try]/[catch]; [mapper] is
    undefined where the method cannot build a result from the response
    (the body is not JSON, or it lacks the identifier). *)

Record Candidate : Type := {
  request : Http.Request;
  guarded : bool;
  mapper : Http.Response Http.Data -> option Value
}.

Definition from_body (f : Http.Data -> Value) (r : Http.Response Http.Data) : option Value :=
  option_map f (Http.json r).

Definition urn_from (field : Http.Data -> option string) (r : Http.Response Http.Data)
  : option Value :=
  match Http.json r with
  | Some data =>
      if JS.truthy (field data)
      then Some (UrnValue ("urn:li:person:" ++ JS.string_of_nullable (field data)))
      else None
  | None => None
  end.

Definition candidates (token urn : string) (op : Operation) : list Candidate :=
  match op with
  | GetMemberUrn =>
      [ {| request := rest_me_request token; guarded := true; mapper := urn_from Http.sub |};
        {| request := userinfo_request token; guarded := true; mapper := urn_from Http.sub |};
        {| request := v2_me_request token; guarded := true; mapper := urn_from Http.id |} ]
  | GetProfile =>
      [ {| request := userinfo_request token; guarded := true;
           mapper := from_body (fun d => ProfileValue (profile_of_userinfo d)) |};
        {| request := rest_me_request token; guarded := true;
           mapper := from_body (fun d => ProfileValue (profile_of_rest_me d)) |};
        {| request := v2_me_request token; guarded := false;
           mapper := from_body (fun d => ProfileValue (profile_of_v2_me d)) |} ]
  | CreatePost text visibility =>
      [ {| request := rest_posts_request token (postData urn text visibility);
           guarded := false;
           mapper := fun r => Some (PostValue (created_from_header r)) |};
        {| request := ugcPosts_request token (legacyPostData urn text visibility);
           guarded := false;
           mapper := from_body (fun d => PostValue (created_from_body d)) |} ]
  | CreateArticlePost text articleUrl title description visibility =>
      [ {| request := rest_posts_request token
                        (articlePostData urn text articleUrl title description visibility);
           guarded := false;
           mapper := fun r => Some (PostValue (created_from_header r)) |};
        {| request := ugcPosts_request token
                        (legacyArticlePostData urn text articleUrl title description
                                               visibility);
           guarded := false;
           mapper := from_body (fun d => PostValue (created_from_body d)) |} ]
  | GetPosts n =>
      [ {| request := ugc_query_request token urn n; guarded := false;
           mapper := from_body (fun d => PostsValue (posts_of d)) |} ]
  | DeletePost postId =>
      [ {| request := rest_delete_request token postId; guarded := false;
           mapper := fun _ => Some (DeleteValue {| deleted := true; delete_message := None |}) |};
        {| request := ugc_delete_request token postId; guarded := false;
           mapper := fun _ => Some (DeleteValue {| deleted := true; delete_message := None |}) |} ]
  | GetConnectionsCount =>
      [ {| request := connections_request token; guarded := false;
           mapper := from_body (fun d => ConnectionsValue (count_of d)) |} ]
  end.

(** A candidate fails: the transport call does not complete, or the
    response status is outside the success range. *)
Definition fails (net : Http.Request -> Http.Outcome Http.Data) (c : Candidate) : Prop :=
  net (request c) = Http.NetworkError
  \/ exists r, net (request c) = Http.Responded r /\ Http.ok r = false.

(** A candidate completes with a status in the success range. *)
Definition succeeds_with (net : Http.Request -> Http.Outcome Http.Data) (c : Candidate)
           (r : Http.Response Http.Data) : Prop :=
  net (request c) = Http.Responded r /\ Http.ok r = true.

(** The ways in which a method leaves a candidate for the next one. *)
Definition falls_through (net : Http.Request -> Http.Outcome Http.Data) (c : Candidate) : Prop :=
  (exists r, net (request c) = Http.Responded r /\ Http.ok r = false)
  \/ (guarded c = true /\ net (request c) = Http.NetworkError)
  \/ (guarded c = true
      /\ exists r, net (request c) = Http.Responded r /\ Http.ok r = true /\ mapper c r = None).

(** The state in which an operation starts on its chain: identity
    resolution starts with an empty cache; the operations that need the
    member URN start once [getMemberUrn] has returned it. *)
Definition prepared (net : Http.Request -> Http.Outcome Http.Data) (op : Operation)
           (s : State) (urn : string) (s1 : State) : Prop :=
  match op with
  | GetMemberUrn => JS.truthy (memberUrn (this s)) = false /\ s1 = s
  | _ =>
      if needs_identity op
      then getMemberUrn net s = (Ok urn, s1)
      else s1 = s
  end.

(** The operations that only read, and those that change the account. *)
Definition read_only (op : Operation) : bool :=
  match op with
  | GetMemberUrn | GetProfile | GetPosts _ | GetConnectionsCount => true
  | _ => false
  end.

Definition mutating (op : Operation) : bool := negb (read_only op).

(** A structured soft-failure result: a value whose message is set. *)
Definition soft_failure (v : Value) : Prop :=
  match v with
  | PostsValue r => exists m, posts_message r = Some m
  | ConnectionsValue r => exists m, count_message r = Some m
  | DeleteValue r => deleted r = false /\ exists m, delete_message r = Some m
  | PostValue r => success r = false /\ exists m, message r = Some m
  | UrnValue _ => False
  | ProfileValue _ => False
  end.

End Client.

(* ================================================================== *)
(** ** Concrete situations used as examples below *)

Module Scenario.

Definition blank : Http.Data :=
  {| Http.sub := None; Http.id := None; Http.name := None;
     Http.given_name := None; Http.family_name := None; Http.picture := None;
     Http.email := None; Http.email_verified := None;
     Http.localizedFirstName := None; Http.localizedLastName := None;
     Http.elements := None; Http.paging := None |}.

Definition with_sub (s : string) : Http.Data :=
  {| Http.sub := Some s; Http.id := None; Http.name := Some "Ada";
     Http.given_name := None; Http.family_name := None; Http.picture := None;
     Http.email := Some "ada@example.org"; Http.email_verified := None;
     Http.localizedFirstName := None; Http.localizedLastName := None;
     Http.elements := None; Http.paging := None |}.

Definition with_id (s : string) : Http.Data :=
  {| Http.sub := None; Http.id := Some s; Http.name := None;
     Http.given_name := None; Http.family_name := None; Http.picture := None;
     Http.email := None; Http.email_verified := None;
     Http.localizedFirstName := None; Http.localizedLastName := None;
     Http.elements := None; Http.paging := None |}.

Definition reply {B} (code : Z) (hdrs : list (string * string)) (txt : string)
           (parsed : option B) : Http.Response B :=
  {| Http.status := code; Http.response_headers := hdrs;
     Http.text := txt; Http.json := parsed |}.

Definition ends_with (suffix s : string) : bool :=
  let n := String.length s in
  let k := String.length suffix in
  String.eqb (String.substring (n - k) k s) suffix.

(** *** Token store and authorization flow *)

Definition credentials : Auth.Credentials :=
  {| Auth.client_id := "86abc"; Auth.client_secret := "s3cret"; Auth.redirect_uri := None |}.

Definition token_with_expiry (t : Z) : Auth.TokenData :=
  {| Auth.access_token := "AQX"; Auth.expires_in := 5184000; Auth.expires_at := t;
     Auth.scope := None; Auth.token_type := None; Auth.id_token := None;
     Auth.sub := None; Auth.name := None; Auth.email := None |}.

Definition world_at (t : Z) (f : Auth.File Auth.TokenData) : Auth.World :=
  {| Auth.now := t; Auth.credentials_file := Auth.Holds credentials;
     Auth.token_file := f; Auth.sent := []; Auth.listener := None; Auth.browser := [] |}.

Definition token_json : Auth.TokenJson :=
  {| Auth.json_access_token := "AQX"; Auth.json_expires_in := 5184000;
     Auth.json_scope := Some "openid,profile,email,w_member_social";
     Auth.json_token_type := Some "Bearer"; Auth.json_id_token := None;
     Auth.json_sub := None; Auth.json_name := None; Auth.json_email := None |}.

Definition loopback : Auth.UrlParts :=
  {| Auth.hostname := "127.0.0.1"; Auth.port := Some 3000; Auth.pathname_of := "/callback" |}.

(** The provider accepts every code; the API knows the member; every
    call takes 250 ms. *)
Definition env_with (requests : list Auth.Incoming) : Auth.Env :=
  {| Auth.CONFIG_DIR := "/home/ada/.linkedin-mcp";
     Auth.token_server := fun _ => Http.Responded (reply 200 [] "{...}" (Some token_json));
     Auth.api_server := fun _ => Http.Responded (reply 200 [] "{...}" (Some (with_sub "m1")));
     Auth.latency := fun _ => 250;
     Auth.consent_delay := 42000;
     Auth.random36 := "0.4fzyo82mvyr";
     Auth.parse_url := fun _ => Some loopback;
     Auth.incoming := requests |}.

Definition granted : Auth.Incoming :=
  Auth.Target "/callback" [("code", "c0de"); ("state", "82mvyr")].

Definition denied : Auth.Incoming :=
  Auth.Target "/callback"
    [("error", "access_denied"); ("error_description", "the user said no")].

Definition malformed : Auth.Incoming := Auth.Target "/callback" [].

Definition favicon : Auth.Incoming := Auth.Target "/favicon.ico" [].

Definition fresh_listener : Auth.Listener := Auth.createServer "127.0.0.1" 3000.

Definition zero_expiry_world : Auth.World :=
  world_at 1 (Auth.Holds (token_with_expiry 0)).

(** *** API client *)

Definition fresh : Client.State :=
  {| Client.this := Client.constructor "AQX"; Client.sent := [] |}.

Definition identified : Client.State :=
  {| Client.this := {| Client.accessToken := "AQX";
                       Client.memberUrn := Some "urn:li:person:m1" |};
     Client.sent := [] |}.

(** Every endpoint answers 500. *)
Definition all_500 : Http.Request -> Http.Outcome Http.Data :=
  fun _ => Http.Responded (reply 500 [] "Internal Server Error" None).

(** The posts endpoint of the current generation answers 201 with the
    identifier in a header; [/rest/me] identifies the member; everything
    else answers 500. *)
Definition posts_201 (hdrs : list (string * string)) : Http.Request -> Http.Outcome Http.Data :=
  fun req =>
    if ends_with "/rest/posts" (Http.url req) then Http.Responded (reply 201 hdrs EmptyString None)
    else if ends_with "/rest/me" (Http.url req)
         then Http.Responded (reply 200 [] "{...}" (Some (with_sub "m1")))
         else Http.Responded (reply 500 [] "Internal Server Error" None).

(** The posts endpoint of the current generation cannot be reached; the
    legacy endpoint answers 201. *)
Definition posts_unreachable : Http.Request -> Http.Outcome Http.Data :=
  fun req =>
    if ends_with "/rest/posts" (Http.url req) then Http.NetworkError
    else Http.Responded (reply 201 [] "{...}" (Some (with_id "urn:li:share:7")))
.

(** [/rest/me] answers 200 without a [sub]; [/v2/userinfo] knows the
    member. *)
Definition anonymous_rest_me : Http.Request -> Http.Outcome Http.Data :=
  fun req =>
    if ends_with "/rest/me" (Http.url req)
    then Http.Responded (reply 200 [] "{}" (Some blank))
    else Http.Responded (reply 200 [] "{...}" (Some (with_sub "m1"))).

End Scenario.

(* ================================================================== *)
(** ** [index.ts]: the tool dispatcher, and the [auth] command *)

Module Server.

(** The object [request.params.arguments], read through the properties
    that the handlers destructure; [None] is a property that the caller
    left out.  The object itself may be missing: see [destructure]. *)
Record Args : Type := {
  text : option string;
  visibility : option Client.Visibility;
  articleUrl : option string;
  title : option string;
  description : option string;
  count : option Z;
  postId : option string
}.

(** The text of a result: a string built by the handler, or the output of
    [JSON.stringify(value, null, 2)] for the value shown. *)
Inductive Content : Type :=
| Text (s : string)
| ProfileJson (p : Client.Profile)
| PostsJson (r : Client.PostsResult)
| ConnectionsJson (r : Client.ConnectionsResult).

Record ToolResult : Type := {
  content : Content;
  isError : bool
}.

(** The variable [linkedinClient] of [main], which refers to the one client
    object, and the requests sent so far. *)
Record State : Type := {
  linkedinClient : option Client.LinkedInClient;
  sent : list Http.Request
}.

(** [s.length]: the number of UTF-16 code units of a string given by its
    UTF-8 bytes. *)
Definition code_units (a : ascii) : Z :=
  let n := N_of_ascii a in
  if ((128 <=? n) && (n <=? 191))%N then 0
  else if (240 <=? n)%N then 2
  else 1.

Fixpoint utf16_length (s : string) : Z :=
  match s with
  | EmptyString => 0
  | String a rest => code_units a + utf16_length rest
  end.

(** A template literal's rendering of [string | undefined]. *)
Definition string_of_optional (v : option string) : string :=
  match v with
  | Some s => s
  | None => "undefined"
  end.

(** [{ ...profile, ...userInfo }]: the three properties of [userInfo]
    replace those of [profile], also when their value is [undefined];
    spreading [null] adds nothing. *)
Definition spread (profile : Client.Profile) (userInfo : option Auth.UserInfo) : Client.Profile :=
  match userInfo with
  | None => profile
  | Some info =>
      {| Client.sub := Auth.info_sub info;
         Client.name := Auth.info_name info;
         Client.given_name := Client.given_name profile;
         Client.family_name := Client.family_name profile;
         Client.picture := Client.picture profile;
         Client.email := Auth.info_email info;
         Client.email_verified := Client.email_verified profile |}
  end.

(** [Math.min(count || 10, 50)]. *)
Definition posts_count (requested : option Z) : Z :=
  Z.min (match requested with
         | Some n => if JS.truthy_num n then n else 10
         | None => 10
         end) 50.

(** [!text || text.trim().length === 0]. *)
Definition blank_text (v : option string) : bool :=
  negb (JS.truthy v) || String.eqb (JS.trim (string_of_optional v)) EmptyString.

(** [!articleUrl || !articleUrl.startsWith("http")]. *)
Definition invalid_url (v : option string) : bool :=
  negb (JS.truthy v) || negb (String.prefix "http" (string_of_optional v)).

Definition visibility_or_public (v : option Client.Visibility) : Client.Visibility :=
  match v with
  | Some x => x
  | None => Client.PUBLIC
  end.

(** The tools whose handler destructures the arguments object. *)
Definition destructuring_tools : list string :=
  [ "linkedin_create_post"; "linkedin_create_article_post";
    "linkedin_get_posts"; "linkedin_delete_post" ].

(** The names of the tools that the server lists. *)
Definition tool_names : list string :=
  [ "linkedin_get_profile"; "linkedin_create_post"; "linkedin_create_article_post";
    "linkedin_get_posts"; "linkedin_delete_post"; "linkedin_get_connections_count" ].

Section Dispatch.

(** The platform's servers, the token store and clock as a call finds them,
    the configuration directory, and the messages that the runtime gives to
    the errors it raises itself. *)
Variable net : Http.Request -> Http.Outcome Http.Data.
Variable store : Auth.World.
Variable env : Auth.Env.
Variable runtime_message : exn -> string.

Definition getConfigDir : string := Auth.CONFIG_DIR env.

Definition not_authenticated : string :=
  "Not authenticated. Please run 'npm run auth' in the linkedin-mcp-server directory to authenticate."
  ++ JS.newline ++ "Config directory: " ++ getConfigDir.

Definition ensureClient : M State Client.LinkedInClient :=
  fun st =>
    match linkedinClient st with
    | Some client => (Ok client, st)
    | None =>
        let accessToken := Auth.getAccessToken store in
        if negb (JS.truthy accessToken) then (Throw (Error not_authenticated), st)
        else
          let client := Client.constructor (string_of_optional accessToken) in
          (Ok client, {| linkedinClient := Some client; sent := sent st |})
    end.

(** [await client.method(...)]: the method runs on the object that
    [linkedinClient] refers to, so what it caches stays in that object. *)
Definition on_client {A} (client : Client.LinkedInClient) (m : M Client.State A) : M State A :=
  fun st =>
    match m {| Client.this := client; Client.sent := sent st |} with
    | (r, after) =>
        (r, {| linkedinClient := Some (Client.this after); sent := Client.sent after |})
    end.

(** [error instanceof Error ? error.message : String(error)]. *)
Definition message_of (e : exn) : string :=
  match e with
  | Error message => message
  | other => runtime_message other
  end.

Definition plain (s : string) : ToolResult := {| content := Text s; isError := false |}.

Definition failure (e : exn) : ToolResult :=
  {| content := Text ("Error: " ++ message_of e); isError := true |}.

(** [const { ... } = args]: the arguments object of the request may be
    [undefined], and destructuring it then throws. *)
Definition destructure (arguments : option Args) : M State Args :=
  match arguments with
  | Some args => ret args
  | None => throw DestructuringError
  end.

(** The handler registered for [CallToolRequestSchema]. *)
Definition callTool (name : string) (arguments : option Args) : M State ToolResult :=
  try_catch
    (client <- ensureClient ;;
     if String.eqb name "linkedin_get_profile" then
       profile <- on_client client (Client.getProfile net) ;;
       let userInfo := Auth.getUserInfo store in
       ret {| content := ProfileJson (spread profile userInfo); isError := false |}
     else if String.eqb name "linkedin_create_post" then
       args <- destructure arguments ;;
       if blank_text (text args) then throw (Error "Post text cannot be empty")
       else if utf16_length (string_of_optional (text args)) >? 3000
            then throw (Error "Post text exceeds 3000 character limit")
            else
              result <- on_client client
                          (Client.createPost net (string_of_optional (text args))
                                             (visibility_or_public (visibility args))) ;;
              ret (plain ("Post created successfully!" ++ JS.newline
                          ++ "Post ID: " ++ string_of_optional (Client.id result) ++ JS.newline
                          ++ "Visibility: "
                          ++ Client.visibility_string (visibility_or_public (visibility args))))
     else if String.eqb name "linkedin_create_article_post" then
       args <- destructure arguments ;;
       if blank_text (text args) then throw (Error "Post text cannot be empty")
       else if invalid_url (articleUrl args) then throw (Error "Invalid article URL")
            else
              result <- on_client client
                          (Client.createArticlePost net (string_of_optional (text args))
                                                    (string_of_optional (articleUrl args))
                                                    (title args) (description args)
                                                    (visibility_or_public (visibility args))) ;;
              ret (plain ("Article post created successfully!" ++ JS.newline
                          ++ "Post ID: " ++ string_of_optional (Client.id result) ++ JS.newline
                          ++ "Article: " ++ string_of_optional (articleUrl args) ++ JS.newline
                          ++ "Visibility: "
                          ++ Client.visibility_string (visibility_or_public (visibility args))))
     else if String.eqb name "linkedin_get_posts" then
       args <- destructure arguments ;;
       result <- on_client client (Client.getPosts net (posts_count (count args))) ;;
       ret {| content := PostsJson result; isError := false |}
     else if String.eqb name "linkedin_delete_post" then
       args <- destructure arguments ;;
       result <- on_client client (Client.deletePost net (string_of_optional (postId args))) ;;
       ret (plain (if Client.deleted result
                   then "Post deleted successfully."
                   else "Failed to delete post: "
                        ++ string_of_optional (Client.delete_message result)))
     else if String.eqb name "linkedin_get_connections_count" then
       result <- on_client client (Client.getConnectionsCount net) ;;
       ret {| content := ConnectionsJson result; isError := false |}
     else throw (Error ("Unknown tool: " ++ name)))%js
    (fun error => ret (failure error)).

End Dispatch.

(** The [auth] command: [process.exit(0)] once the flow has returned,
    [process.exit(1)] once it has thrown; no exit while it waits. *)
Definition auth_main (env : Auth.Env) (w : Auth.World) : option Z * Auth.World :=
  match Auth.authenticateInteractive env w with
  | (Ok _, w') => (Some 0, w')
  | (Throw _, w') => (Some 1, w')
  | (Hang, w') => (None, w')
  end.

End Server.

(* ================================================================== *)
(** ** Vocabulary for the properties below *)

Module Trace.

(** The requests of identity resolution, in the order of [getMemberUrn]. *)
Definition identity_requests (token : string) : list Http.Request :=
  [ Client.rest_me_request token; Client.userinfo_request token; Client.v2_me_request token ].

(** A request that presents the access token. *)
Definition authorized (token : string) (req : Http.Request) : Prop :=
  In ("Authorization", "Bearer " ++ token) (Http.headers req).

(** The number of occurrences of a character. *)
Fixpoint occurrences (c : ascii) (s : string) : nat :=
  match s with
  | EmptyString => O
  | String a rest => (if Ascii.eqb a c then 1 else 0) + occurrences c rest
  end.

(** The characters that the form serializer lets through or produces. *)
Definition form_safe (a : ascii) : bool :=
  JS.is_alnum a || JS.mem_ascii a "*-._+%".

(** The characters that [encodeURIComponent] lets through or produces. *)
Definition component_safe (a : ascii) : bool :=
  JS.is_alnum a || JS.mem_ascii a "-_.!~*'()%".

Fixpoint all_chars (p : ascii -> bool) (s : string) : bool :=
  match s with
  | EmptyString => true
  | String a rest => p a && all_chars p rest
  end.

(** What a [try] block of [fetchUserInfo] can use of a [fetch]: the parsed
    body of a response in the success range. *)
Definition usable (o : Http.Outcome Http.Data) : option Http.Data :=
  match o with
  | Http.Responded r => if Http.ok r then Http.json r else None
  | Http.NetworkError => None
  end.

(** A request that the handler's path test turns away. *)
Definition elsewhere (callbackPath : string) (req : Auth.Incoming) : Prop :=
  exists pathname q, req = Auth.Target pathname q /\ pathname <> callbackPath.

(** The listener is closed whenever its promise is resolved with a code. *)
Definition closed_if_resolved (l : Auth.Listener) : Prop :=
  forall code, Auth.flow l = Auth.Resolved code -> Auth.listening l = false.

(** The state once several requests have gone out, one after the other. *)
Definition after_requests (s : Client.State) (l : list Http.Request) : Client.State :=
  fold_left Client.after_request l s.

End Trace.

(* ================================================================== *)
(** ** How the receiver of a URL reads it *)

Module Url.

(** The value of a hexadecimal digit. *)
Definition hex_value (a : ascii) : option N :=
  let n := N_of_ascii a in
  if ((48 <=? n) && (n <=? 57))%N then Some (n - 48)%N
  else if ((65 <=? n) && (n <=? 70))%N then Some (n - 55)%N
  else if ((97 <=? n) && (n <=? 102))%N then Some (n - 87)%N
  else None.

(** The form parser's decoding of a name or a value: [+] is a space and
    [%XY] is the byte with that hexadecimal code. *)
Fixpoint form_decode (s : string) : string :=
  match s with
  | EmptyString => EmptyString
  | String c rest =>
      if Ascii.eqb c "%" then
        match rest with
        | String h (String l rest') =>
            match hex_value h, hex_value l with
            | Some x, Some y => String (ascii_of_N (16 * x + y)) (form_decode rest')
            | _, _ => String c (form_decode rest)
            end
        | _ => String c (form_decode rest)
        end
      else String (if Ascii.eqb c "+" then " "%char else c) (form_decode rest)
  end.

(** The pieces of a string between the occurrences of a character. *)
Fixpoint split_on (c : ascii) (s : string) : list string :=
  match s with
  | EmptyString => [EmptyString]
  | String a rest =>
      if Ascii.eqb a c then EmptyString :: split_on c rest
      else match split_on c rest with
           | piece :: pieces => String a piece :: pieces
           | [] => [String a EmptyString]
           end
  end.

(** What precedes and what follows the first occurrence of a character;
    everything precedes when there is none. *)
Fixpoint split_first (c : ascii) (s : string) : string * string :=
  match s with
  | EmptyString => (EmptyString, EmptyString)
  | String a rest =>
      if Ascii.eqb a c then (EmptyString, rest)
      else (String a (fst (split_first c rest)), snd (split_first c rest))
  end.

Definition parse_pair (piece : string) : string * string :=
  (form_decode (fst (split_first "=" piece)), form_decode (snd (split_first "=" piece))).

(** The [application/x-www-form-urlencoded] parser: the input is cut at
    every [&], empty pieces are dropped, and each piece is cut at its first
    [=] into a name and a value, which are decoded. *)
Definition form_parse (s : string) : JS.URLSearchParams :=
  map parse_pair
      (filter (fun piece => negb (String.eqb piece EmptyString)) (split_on "&" s)).

Fixpoint until_hash (s : string) : string :=
  match s with
  | EmptyString => EmptyString
  | String a rest => if Ascii.eqb a "#" then EmptyString else String a (until_hash rest)
  end.

(** The query of a URL: what stands between the first [?] and the [#] of
    the fragment. *)
Fixpoint query_of (url : string) : string :=
  match url with
  | EmptyString => EmptyString
  | String a rest =>
      if Ascii.eqb a "#" then EmptyString
      else if Ascii.eqb a "?" then until_hash rest
           else query_of rest
  end.

(** [new URL(url).searchParams], as a list of name/value pairs. *)
Definition searchParams (url : string) : JS.URLSearchParams :=
  form_parse (query_of url).

(** [decodeURIComponent] on bytes: [%XY] is the byte with that code. *)
Fixpoint percent_decode (s : string) : string :=
  match s with
  | EmptyString => EmptyString
  | String c rest =>
      if Ascii.eqb c "%" then
        match rest with
        | String h (String l rest') =>
            match hex_value h, hex_value l with
            | Some x, Some y => String (ascii_of_N (16 * x + y)) (percent_decode rest')
            | _, _ => String c (percent_decode rest)
            end
        | _ => String c (percent_decode rest)
        end
      else String c (percent_decode rest)
  end.

(** *** The path of an [https] URL, as the URL parser of [fetch] reads it

    The parser cuts the path at every [/], drops a single-dot segment,
    and lets a double-dot segment remove the segment before it; the path
    ends at a [?] or a [#].  Only paths made of characters that the parser
    leaves as they are have a value here. *)

Definition plain_path_char (a : ascii) : bool :=
  JS.is_alnum a || JS.mem_ascii a "-._~!$&'()*+,;=:@%".

Definition is_single_dot (segment : string) : bool :=
  String.eqb (JS.toLowerCase segment) "." || String.eqb (JS.toLowerCase segment) "%2e".

Definition is_double_dot (segment : string) : bool :=
  String.eqb (JS.toLowerCase segment) ".."
  || String.eqb (JS.toLowerCase segment) ".%2e"
  || String.eqb (JS.toLowerCase segment) "%2e."
  || String.eqb (JS.toLowerCase segment) "%2e%2e".

Fixpoint path_pieces (s : string) : option (list string) :=
  match s with
  | EmptyString => Some [EmptyString]
  | String a rest =>
      if Ascii.eqb a "?" || Ascii.eqb a "#" then Some [EmptyString]
      else
        match path_pieces rest with
        | None => None
        | Some pieces =>
            if Ascii.eqb a "/" then Some (EmptyString :: pieces)
            else if plain_path_char a
                 then match pieces with
                      | piece :: more => Some (String a piece :: more)
                      | [] => Some [String a EmptyString]
                      end
                 else None
        end
  end.

(** The path state of the parser, segment by segment: [path] is the list
    built so far, and the last piece is the one not followed by [/]. *)
Fixpoint walk (pieces : list string) (path : list string) : list string :=
  match pieces with
  | [] => path
  | piece :: more =>
      match more with
      | [] =>
          if is_double_dot piece then (removelast path ++ [EmptyString])%list
          else if is_single_dot piece then (path ++ [EmptyString])%list
               else (path ++ [piece])%list
      | _ :: _ =>
          if is_double_dot piece then walk more (removelast path)
          else if is_single_dot piece then walk more path
               else walk more (path ++ [piece])%list
      end
  end.

(** The segments of a path that starts with [/]. *)
Definition path_segments (path : string) : option (list string) :=
  match path with
  | String a rest =>
      if Ascii.eqb a "/"
      then option_map (fun pieces => walk pieces []) (path_pieces rest)
      else None
  | EmptyString => None
  end.

End Url.

(* ================================================================== *)
(** ** Further concrete situations *)

Module Sample.

(** The provider refuses the code. *)
Definition refusing (requests : list Auth.Incoming) : Auth.Env :=
  {| Auth.CONFIG_DIR := "/home/ada/.linkedin-mcp";
     Auth.token_server :=
       fun _ => Http.Responded (Scenario.reply 400 [] "{invalid_grant}" None);
     Auth.api_server :=
       fun _ => Http.Responded (Scenario.reply 200 [] "{...}" (Some (Scenario.with_sub "m1")));
     Auth.latency := fun _ => 250;
     Auth.consent_delay := 42000;
     Auth.random36 := "0.4fzyo82mvyr";
     Auth.parse_url := fun _ => Some Scenario.loopback;
     Auth.incoming := requests |}.

(** A server that has not created its client yet, and one whose client has
    the member URN cached. *)
Definition idle : Server.State :=
  {| Server.linkedinClient := None; Server.sent := [] |}.

Definition serving : Server.State :=
  {| Server.linkedinClient := Some (Client.this Scenario.identified); Server.sent := [] |}.

Definition no_args : Server.Args :=
  {| Server.text := None; Server.visibility := None; Server.articleUrl := None;
     Server.title := None; Server.description := None; Server.count := None;
     Server.postId := None |}.

Definition with_text (t : string) : Server.Args :=
  {| Server.text := Some t; Server.visibility := None; Server.articleUrl := None;
     Server.title := None; Server.description := None; Server.count := None;
     Server.postId := None |}.

Definition with_count (n : Z) : Server.Args :=
  {| Server.text := None; Server.visibility := None; Server.articleUrl := None;
     Server.title := None; Server.description := None; Server.count := Some n;
     Server.postId := None |}.

Definition with_postId (p : string) : Server.Args :=
  {| Server.text := None; Server.visibility := None; Server.articleUrl := None;
     Server.title := None; Server.description := None; Server.count := None;
     Server.postId := Some p |}.

Definition messages : exn -> string := fun _ => "fetch failed".

(** A token store whose record expired at 500, seen at 900; and one whose
    record is valid, seen at 5. *)
Definition expired_store : Auth.World :=
  Scenario.world_at 900 (Auth.Holds (Scenario.token_with_expiry 500)).

Definition valid_store : Auth.World :=
  Scenario.world_at 5 (Auth.Holds (Scenario.token_with_expiry 10)).

End Sample.

(* ================================================================== *)
(** ** Properties of the token store *)

Section TokenStoreFacts.

Import Auth.

Lemma loadToken_holds (w : World) (t : TokenData) :
  loadToken w = Some t <-> token_file w = Holds t.
Proof.
  unfold loadToken; destruct (token_file w); split; intros H;
    inversion H; subst; reflexivity.
Qed.

Lemma isAuthenticated_absent (w : World) :
  loadToken w = None -> isAuthenticated w = false.
Proof. intros H; unfold isAuthenticated; rewrite H; reflexivity. Qed.

Lemma isAuthenticated_present (w : World) (t : TokenData) :
  loadToken w = Some t ->
  isAuthenticated w = negb (JS.truthy_num (expires_at t) && (now w >=? expires_at t)).
Proof.
  intros H; unfold isAuthenticated; rewrite H.
  destruct (JS.truthy_num (expires_at t) && (now w >=? expires_at t)); reflexivity.
Qed.

(** C5, as stated, fails: a stored record whose [expires_at] is [0] is
    reported as authenticated at time [1], although [1 < 0] is false. *)
Lemma isAuthenticated_zero_expiry :
  loadToken Scenario.zero_expiry_world = Some (Scenario.token_with_expiry 0)
  /\ isAuthenticated Scenario.zero_expiry_world = true
  /\ ~ (now Scenario.zero_expiry_world < expires_at (Scenario.token_with_expiry 0)).
Proof.
  cbn; repeat split; lia.
Qed.

(** C5, amended: [isAuthenticated()] is true exactly when a record is
    stored and either its [expires_at] is falsy (zero) or the current time
    is before it; with no record it is false. *)
Theorem isAuthenticated_iff (w : World) :
  isAuthenticated w = true <->
  exists t, loadToken w = Some t /\ (expires_at t = 0 \/ now w < expires_at t).
Proof.
  destruct (loadToken w) as [t|] eqn:Hload.
  - rewrite (isAuthenticated_present w t Hload).
    unfold JS.truthy_num.
    split.
    + intros H. exists t. split; [reflexivity|].
      destruct (expires_at t =? 0) eqn:Hz.
      * left; lia.
      * right. cbn in H. destruct (now w >=? expires_at t) eqn:Hge; [discriminate|].
        rewrite Z.geb_leb in Hge. lia.
    + intros [t' [Ht' [Hzero | Hlt]]]; inversion Ht'; subst t'.
      * rewrite Hzero; reflexivity.
      * assert (Hge : (now w >=? expires_at t) = false)
          by (rewrite Z.geb_leb; lia).
        rewrite Hge, andb_false_r; reflexivity.
  - rewrite (isAuthenticated_absent w Hload).
    split; [discriminate|]. intros [t [Ht _]]; discriminate.
Qed.

End TokenStoreFacts.

(* ================================================================== *)
(** ** Properties of the authorization flow *)

Section FlowFacts.

Import Auth.

Variable env : Env.

Lemma same_files_refl (w : World) : same_files w w.
Proof. repeat split. Qed.

Lemma same_files_trans (w1 w2 w3 : World) :
  same_files w1 w2 -> same_files w2 w3 -> same_files w1 w3.
Proof.
  unfold same_files; intros (A1 & A2 & A3 & A4) (B1 & B2 & B3 & B4).
  repeat split; congruence.
Qed.

Lemma fetch_token_frame (req : Http.Request) (w : World) :
  same_files w (snd (fetch_token env req w)).
Proof.
  unfold fetch_token; destruct (token_server env req); repeat split.
Qed.

Lemma fetch_frame (req : Http.Request) (w : World) :
  same_files w (snd (fetch env req w)).
Proof.
  unfold fetch; destruct (api_server env req); repeat split.
Qed.

(** The exchange, when the provider accepts the code. *)
Lemma exchangeCodeForToken_ok (code : string) (creds : Credentials) (uri : string)
      (w : World) (r : Http.Response TokenJson) (tj : TokenJson) :
  token_server env (token_request code creds uri) = Http.Responded r ->
  Http.ok r = true ->
  Http.json r = Some tj ->
  exists t w',
    exchangeCodeForToken env code creds uri w = (Ok t, w')
    /\ now w' = now w + latency env (token_request code creds uri)
    /\ expires_in t = json_expires_in tj
    /\ access_token t = json_access_token tj
    /\ expires_at t = now w' + expires_in t * 1000
    /\ same_files w w'.
Proof.
  intros Hnet Hok Hjson.
  unfold exchangeCodeForToken, bind, fetch_token.
  rewrite Hnet, Hok; cbn.
  unfold json_of; rewrite Hjson; cbn.
  eexists; eexists; split; [reflexivity|].
  cbn; repeat split.
Qed.

Lemma exchangeCodeForToken_frame (code : string) (creds : Credentials) (uri : string)
      (w : World) :
  same_files w (snd (exchangeCodeForToken env code creds uri w)).
Proof.
  unfold exchangeCodeForToken, bind, fetch_token.
  destruct (token_server env _) as [|r]; [repeat split|].
  destruct (negb (Http.ok r)); [repeat split|].
  unfold json_of; destruct (Http.json r); repeat split.
Qed.

(** [fetchUserInfo] never rejects: identity is fetched on a best-effort
    basis. *)
Lemma fetchUserInfo_returns (accessToken : string) (w : World) :
  exists info w',
    fetchUserInfo env accessToken w = (Ok info, w') /\ same_files w w'.
Proof.
  unfold fetchUserInfo, attempt, try_catch, bind, fetch, json_of, ret, throw.
  destruct (api_server env (userinfo_request accessToken)) as [|r1];
    [|destruct (Http.ok r1); [destruct (Http.json r1)|]];
    cbn;
    try (eexists; eexists; split; [reflexivity|repeat split]; fail);
    (destruct (api_server env (rest_me_request accessToken)) as [|r2];
     [|destruct (Http.ok r2); [destruct (Http.json r2)|]];
     cbn; eexists; eexists; split; try reflexivity; repeat split).
Qed.


Lemma await_code_resolved (h : string) (p : Z) (path url : string) (w : World) (code : string) :
  flow (serve path (incoming env) (createServer h p)) = Resolved code ->
  await_code env h p path url w
  = (Ok code,
     set_listener w (serve path (incoming env) (createServer h p)) url
                  (now w + consent_delay env)).
Proof. intros H; unfold await_code; rewrite H; reflexivity. Qed.

(** C6: when the provider accepts the code, the record produced by the
    exchange has [expires_at = issued_at + expires_in * 1000], where
    [issued_at] is the clock when the response has arrived; the flow then
    stores a record with that very [expires_at], although fetching the
    identity has moved the clock on, and the token store reads it back
    unchanged. *)
Theorem expires_at_fixed_at_exchange
        (w : World) (creds : Credentials) (parts : UrlParts) (code : string)
        (r : Http.Response TokenJson) (tj : TokenJson) :
  loadCredentials w = Some creds ->
  parse_url env (redirectUri_of creds) = Some parts ->
  flow (serve (callbackPath_of parts) (incoming env)
              (createServer (callbackHost_of parts) (callbackPort_of parts)))
  = Resolved code ->
  token_server env (token_request code creds (redirectUri_of creds)) = Http.Responded r ->
  Http.ok r = true ->
  Http.json r = Some tj ->
  exists (issued_at : Z) (t0 t : TokenData) (w0 w' : World),
    issued_at = now w + consent_delay env
                + latency env (token_request code creds (redirectUri_of creds))
    /\ fst (exchangeCodeForToken env code creds (redirectUri_of creds) w0) = Ok t0
    /\ expires_in t0 = json_expires_in tj
    /\ expires_at t0 = issued_at + expires_in t0 * 1000
    /\ authenticateInteractive env w = (Ok t, w')
    /\ expires_in t = expires_in t0
    /\ expires_at t = expires_at t0
    /\ token_file w' = Holds t
    /\ loadToken w' = Some t.
Proof.
  intros Hcreds Hparse Hcode Hnet Hok Hjson.
  set (uri := redirectUri_of creds) in *.
  set (w0 := set_listener w
               (serve (callbackPath_of parts) (incoming env)
                      (createServer (callbackHost_of parts) (callbackPort_of parts)))
               (authUrl env creds uri) (now w + consent_delay env)).
  destruct (exchangeCodeForToken_ok code creds uri w0 r tj Hnet Hok Hjson)
    as (t0 & w1 & Hex & Hnow & Hin & Htok & Hat & Hframe1).
  destruct (fetchUserInfo_returns (access_token t0) w1) as (info & w2 & Hinfo & Hframe2).
  exists (now w + consent_delay env + latency env (token_request code creds uri)), t0.
  eexists; exists w0; eexists.
  split; [reflexivity|].
  split; [rewrite Hex; reflexivity|].
  split; [exact Hin|].
  split; [rewrite Hat, Hnow; reflexivity|].
  assert (Hrun : authenticateInteractive env w
                 = (Ok {| access_token := access_token t0;
                          expires_in := expires_in t0;
                          expires_at := expires_at t0;
                          scope := scope t0;
                          token_type := token_type t0;
                          id_token := id_token t0;
                          sub := info_sub info;
                          name := info_name info;
                          email := info_email info |},
                    set_token_file w2
                      (Holds {| access_token := access_token t0;
                                expires_in := expires_in t0;
                                expires_at := expires_at t0;
                                scope := scope t0;
                                token_type := token_type t0;
                                id_token := id_token t0;
                                sub := info_sub info;
                                name := info_name info;
                                email := info_email info |}))).
  { unfold authenticateInteractive.
    unfold bind at 1. unfold gets at 1. rewrite Hcreds.
    fold uri. rewrite Hparse.
    unfold bind at 1.
    rewrite (await_code_resolved _ _ _ _ w code Hcode).
    fold w0.
    unfold bind at 1. rewrite Hex.
    unfold bind at 1. rewrite Hinfo.
    reflexivity. }
  split; [exact Hrun|].
  cbn. repeat split.
Qed.


End FlowFacts.

Lemma expires_at_fixed_at_exchange_example :
  Auth.loadCredentials (Scenario.world_at 1000 Auth.Absent) = Some Scenario.credentials
  /\ exists (issued_at : Z) (t0 t : Auth.TokenData) (w0 w' : Auth.World),
       issued_at = 1000 + 42000 + 250
       /\ fst (Auth.exchangeCodeForToken (Scenario.env_with [Scenario.granted]) "c0de"
                 Scenario.credentials (Auth.redirectUri_of Scenario.credentials) w0) = Ok t0
       /\ Auth.expires_in t0 = 5184000
       /\ Auth.expires_at t0 = issued_at + Auth.expires_in t0 * 1000
       /\ Auth.authenticateInteractive (Scenario.env_with [Scenario.granted])
            (Scenario.world_at 1000 Auth.Absent) = (Ok t, w')
       /\ Auth.expires_in t = Auth.expires_in t0
       /\ Auth.expires_at t = Auth.expires_at t0
       /\ Auth.token_file w' = Auth.Holds t
       /\ Auth.loadToken w' = Some t.
Proof.
  split; [reflexivity|].
  apply (expires_at_fixed_at_exchange (Scenario.env_with [Scenario.granted])
           (Scenario.world_at 1000 Auth.Absent) Scenario.credentials Scenario.loopback
           "c0de"
           (Scenario.reply 200 [] "{...}" (Some Scenario.token_json))
           Scenario.token_json); reflexivity.
Defined.

(* ================================================================== *)
(** ** Properties of the callback listener *)

Section ListenerFacts.

Import Auth.

(** C2, evaluated on the code: a callback with [error=access_denied] makes
    the flow fail with the OAuth error and answers 400, but the listener is
    still listening afterwards; so it is after a callback with neither
    [code] nor [error]; only the callback that carries a code closes it. *)
Theorem listener_closed_only_on_success :
  (fst (authenticateInteractive (Scenario.env_with [Scenario.denied])
          (Scenario.world_at 1000 Absent))
   = Throw (Error "OAuth error: access_denied")
   /\ option_map listening
        (listener (snd (authenticateInteractive (Scenario.env_with [Scenario.denied])
                          (Scenario.world_at 1000 Absent))))
      = Some true)
  /\ (fst (authenticateInteractive (Scenario.env_with [Scenario.malformed])
             (Scenario.world_at 1000 Absent))
      = Throw (Error "No authorization code received")
      /\ option_map listening
           (listener (snd (authenticateInteractive (Scenario.env_with [Scenario.malformed])
                             (Scenario.world_at 1000 Absent))))
         = Some true)
  /\ option_map listening
       (listener (snd (authenticateInteractive (Scenario.env_with [Scenario.granted])
                         (Scenario.world_at 1000 Absent))))
     = Some false.
Proof.
  repeat split; vm_compute; reflexivity.
Qed.

Lemma handler_other_path (callbackPath pathname : string) (q : JS.URLSearchParams)
      (l : Listener) :
  pathname <> callbackPath ->
  handler callbackPath (Target pathname q) l = l.
Proof.
  intros Hneq. unfold handler.
  destruct (String.eqb_spec pathname callbackPath) as [Heq|_]; [contradiction|reflexivity].
Qed.

Lemma settle_pending (l : Listener) (s : Settlement) :
  flow l <> Pending -> flow (settle l s) = flow l.
Proof.
  unfold settle; cbn. destruct (flow l); intros H; try reflexivity. contradiction.
Qed.

(** C10, as stated, fails: a request whose target does not parse as a URL
    does not pass the path test, and yet it rejects the pending flow. *)
Lemma unparsable_target_rejects_flow :
  matches_path "/callback" BadTarget = false
  /\ flow Scenario.fresh_listener = Pending
  /\ flow (handler "/callback" BadTarget Scenario.fresh_listener) = Rejected InvalidUrlError
  /\ handler "/callback" BadTarget Scenario.fresh_listener <> Scenario.fresh_listener.
Proof.
  repeat split. discriminate.
Qed.

(** C10, amended: a request whose URL parses and whose path differs from
    the callback path gets no response and leaves the listener, and with
    it the pending flow, as it was; a request whose target does not parse
    gets no response either but rejects a pending flow; so a pending flow
    is settled only by a request on the callback path or by an unparsable
    one. *)
Theorem handler_ignores_other_paths (callbackPath : string) (l : Listener) :
  (forall (pathname : string) (q : JS.URLSearchParams),
      pathname <> callbackPath ->
      handler callbackPath (Target pathname q) l = l)
  /\ (replies (handler callbackPath BadTarget l) = replies l
      /\ listening (handler callbackPath BadTarget l) = listening l
      /\ (flow l = Pending ->
          flow (handler callbackPath BadTarget l) = Rejected InvalidUrlError))
  /\ (forall req : Incoming,
         flow l = Pending ->
         flow (handler callbackPath req l) <> Pending ->
         req = BadTarget \/ exists q, req = Target callbackPath q).
Proof.
  split; [intros; apply handler_other_path; assumption|].
  split.
  - repeat split. cbn. intros ->. reflexivity.
  - intros [|p q] Hpending Hsettled; [left; reflexivity|right].
    destruct (String.eqb_spec p callbackPath) as [->|Hneq].
    + exists q; reflexivity.
    + rewrite (handler_other_path _ _ q l Hneq) in Hsettled. contradiction.
Qed.

End ListenerFacts.

Lemma handler_ignores_other_paths_example :
  "/favicon.ico" <> "/callback"
  /\ Auth.handler "/callback" Scenario.favicon Scenario.fresh_listener
     = Scenario.fresh_listener.
Proof.
  split; [discriminate|].
  apply (proj1 (handler_ignores_other_paths "/callback" Scenario.fresh_listener)).
  discriminate.
Defined.

(* ================================================================== *)
(** ** Properties of the API client *)

Section ClientFacts.

Import Client.

Variable net : Http.Request -> Http.Outcome Http.Data.

Lemma fetch_responded (req : Http.Request) (r : Http.Response Http.Data) (s : State) :
  net req = Http.Responded r -> fetch net req s = (Ok r, after_request s req).
Proof. intros H; unfold fetch; rewrite H; reflexivity. Qed.

Lemma fetch_unreachable (req : Http.Request) (s : State) :
  net req = Http.NetworkError -> fetch net req s = (Throw FetchError, after_request s req).
Proof. intros H; unfold fetch; rewrite H; reflexivity. Qed.

Lemma urn_from_some (field : Http.Data -> option string) (r : Http.Response Http.Data)
      (v : Value) :
  urn_from field r = Some v ->
  exists d, Http.json r = Some d /\ JS.truthy (field d) = true
            /\ v = UrnValue ("urn:li:person:" ++ JS.string_of_nullable (field d)).
Proof.
  unfold urn_from. destruct (Http.json r) as [d|]; [|discriminate].
  destruct (JS.truthy (field d)) eqn:Ht; [|discriminate].
  intros H; inversion H; subst. exists d; repeat split; exact Ht.
Qed.

(** The [try] block of [getMemberUrn] returns from the method. *)
Lemma identity_probe_hit (req : Http.Request) (field : Http.Data -> option string)
      (r : Http.Response Http.Data) (urn : string) (s : State) :
  net req = Http.Responded r ->
  Http.ok r = true ->
  urn_from field r = Some (UrnValue urn) ->
  identity_probe net req field s = (Ok (Some urn), remember (after_request s req) urn).
Proof.
  intros Hnet Hok Hurn.
  destruct (urn_from_some _ _ _ Hurn) as (d & Hjson & Htruthy & Hv).
  inversion Hv; subst urn.
  unfold identity_probe, attempt, try_catch, bind.
  rewrite (fetch_responded _ _ _ Hnet), Hok.
  unfold json_of; rewrite Hjson; cbn. rewrite Htruthy. reflexivity.
Qed.

(** The [try] block of [getMemberUrn] is left for the next statement. *)
Lemma identity_probe_miss (req : Http.Request) (field : Http.Data -> option string)
      (s : State) :
  falls_through net {| request := req; guarded := true; mapper := urn_from field |} ->
  identity_probe net req field s = (Ok None, after_request s req).
Proof.
  unfold falls_through; cbn.
  intros [(r & Hnet & Hok) | [(_ & Hnet) | (_ & r & Hnet & Hok & Hmap)]];
    unfold identity_probe, attempt, try_catch, bind.
  - rewrite (fetch_responded _ _ _ Hnet), Hok. reflexivity.
  - rewrite (fetch_unreachable _ _ Hnet). reflexivity.
  - rewrite (fetch_responded _ _ _ Hnet), Hok.
    unfold urn_from in Hmap. unfold json_of.
    destruct (Http.json r) as [d|]; cbn; [|reflexivity].
    destruct (JS.truthy (field d)); [discriminate|reflexivity].
Qed.

Lemma profile_probe_hit (req : Http.Request) (f : Http.Data -> Profile)
      (r : Http.Response Http.Data) (v : Value) (s : State) :
  net req = Http.Responded r ->
  Http.ok r = true ->
  from_body (fun d => ProfileValue (f d)) r = Some v ->
  exists p, v = ProfileValue p
            /\ profile_probe net req f s = (Ok (Some p), after_request s req).
Proof.
  intros Hnet Hok Hmap. unfold from_body in Hmap.
  destruct (Http.json r) as [d|] eqn:Hjson; [|discriminate].
  inversion Hmap; subst v. exists (f d). split; [reflexivity|].
  unfold profile_probe, attempt, try_catch, bind.
  rewrite (fetch_responded _ _ _ Hnet), Hok.
  unfold json_of; rewrite Hjson. reflexivity.
Qed.

Lemma profile_probe_miss (req : Http.Request) (f : Http.Data -> Profile) (s : State) :
  falls_through net {| request := req; guarded := true;
                       mapper := from_body (fun d => ProfileValue (f d)) |} ->
  profile_probe net req f s = (Ok None, after_request s req).
Proof.
  unfold falls_through; cbn.
  intros [(r & Hnet & Hok) | [(_ & Hnet) | (_ & r & Hnet & Hok & Hmap)]];
    unfold profile_probe, attempt, try_catch, bind.
  - rewrite (fetch_responded _ _ _ Hnet), Hok. reflexivity.
  - rewrite (fetch_unreachable _ _ Hnet). reflexivity.
  - rewrite (fetch_responded _ _ _ Hnet), Hok.
    unfold from_body in Hmap. unfold json_of.
    destruct (Http.json r) as [d|]; cbn; [discriminate|reflexivity].
Qed.

(** A candidate that is not guarded falls through only on a response
    outside the success range. *)
Lemma unguarded_falls_through (req : Http.Request)
      (m : Http.Response Http.Data -> option Value) :
  falls_through net {| request := req; guarded := false; mapper := m |} ->
  exists r, net req = Http.Responded r /\ Http.ok r = false.
Proof.
  unfold falls_through; cbn.
  intros [H | [(Hg & _) | (Hg & _)]]; [exact H|discriminate|discriminate].
Qed.

Lemma ok_or_status (r : Http.Response Http.Data) (code : Z) :
  200 <= code <= 299 ->
  Http.ok r || (Http.status r =? code) = Http.ok r.
Proof.
  intros Hrange. destruct (Http.ok r) eqn:Hok; [reflexivity|].
  cbn. apply Z.eqb_neq. intros Heq. unfold Http.ok in Hok. rewrite Heq in Hok.
  apply andb_false_iff in Hok. destruct Hok as [H|H]; apply Z.leb_gt in H; lia.
Qed.

(** Every [try] block of [getMemberUrn] completes, sends its one request
    and keeps the access token. *)
Lemma identity_probe_total (req : Http.Request) (field : Http.Data -> option string)
      (s : State) :
  exists o s',
    identity_probe net req field s = (Ok o, s')
    /\ sent s' = (sent s ++ [req])%list
    /\ accessToken (this s') = accessToken (this s).
Proof.
  unfold identity_probe, attempt, try_catch, bind, fetch, json_of.
  destruct (net req) as [|r]; cbn; [do 2 eexists; repeat split|].
  destruct (Http.ok r); cbn; [|do 2 eexists; repeat split].
  destruct (Http.json r) as [d|]; cbn; [|do 2 eexists; repeat split].
  destruct (JS.truthy (field d)); cbn; do 2 eexists; repeat split.
Qed.

Lemma getMemberUrn_cached (s : State) :
  JS.truthy (memberUrn (this s)) = true ->
  getMemberUrn net s = (Ok (JS.string_of_nullable (memberUrn (this s))), s).
Proof.
  intros H. unfold getMemberUrn, bind, gets. rewrite H. reflexivity.
Qed.

(** The requests that identity resolution may send. *)
Lemma getMemberUrn_requests (s : State) :
  exists extra,
    sent (snd (getMemberUrn net s)) = (sent s ++ extra)%list
    /\ accessToken (this (snd (getMemberUrn net s))) = accessToken (this s)
    /\ Forall (fun q => q = rest_me_request (accessToken (this s))
                        \/ q = userinfo_request (accessToken (this s))
                        \/ q = v2_me_request (accessToken (this s))) extra.
Proof.
  unfold getMemberUrn, token_of, bind, gets.
  destruct (JS.truthy (memberUrn (this s))).
  { exists []. cbn. rewrite app_nil_r. repeat split. constructor. }
  cbv beta iota.
  destruct (identity_probe_total (rest_me_request (accessToken (this s))) Http.sub s)
    as (o1 & s1 & E1 & S1 & T1).
  rewrite E1.
  destruct o1 as [urn|].
  { exists [rest_me_request (accessToken (this s))]. cbn.
    repeat split; auto using Forall_cons, Forall_nil. }
  destruct (identity_probe_total (userinfo_request (accessToken (this s))) Http.sub s1)
    as (o2 & s2 & E2 & S2 & T2).
  rewrite E2.
  destruct o2 as [urn|].
  { exists [rest_me_request (accessToken (this s)); userinfo_request (accessToken (this s))].
    cbn. rewrite S2, S1, <- app_assoc.
    repeat split; [congruence|]. repeat (apply Forall_cons; [auto|]). apply Forall_nil. }
  destruct (identity_probe_total (v2_me_request (accessToken (this s))) Http.id s2)
    as (o3 & s3 & E3 & S3 & T3).
  rewrite E3.
  exists [rest_me_request (accessToken (this s)); userinfo_request (accessToken (this s));
          v2_me_request (accessToken (this s))].
  assert (Hsent : sent s3 = (sent s ++ [rest_me_request (accessToken (this s));
                                        userinfo_request (accessToken (this s));
                                        v2_me_request (accessToken (this s))])%list).
  { rewrite S3, S2, S1, <- !app_assoc. reflexivity. }
  assert (Htok : accessToken (this s3) = accessToken (this s)) by congruence.
  destruct o3 as [urn|]; cbn; repeat split; auto;
    repeat (apply Forall_cons; [auto|]); apply Forall_nil.
Qed.

End ClientFacts.

(** *** Running a method against known answers *)

Section ChainFacts.

Import Client.

Variable net : Http.Request -> Http.Outcome Http.Data.

Ltac tidy :=
  unfold ret, throw;
  cbn [fst snd sent this after_request remember map firstn request List.app accessToken memberUrn
       candidates];
  rewrite <- ?app_assoc;
  cbn [List.app].

Ltac step := cbv beta iota; cbn [fst snd this after_request remember accessToken].

Ltac earlier Hprev i F :=
  pose proof (Hprev i _ ltac:(lia) eq_refl) as F.

Ltac pick Hnth :=
  cbn [candidates nth_error] in Hnth; injection Hnth as <-.

Ltac body_of Hmap d Hjson :=
  unfold from_body in Hmap;
  match type of Hmap with
  | option_map _ (Http.json ?r) = _ =>
      destruct (Http.json r) as [d|] eqn:Hjson; [|discriminate];
      cbn [option_map] in Hmap; injection Hmap as <-
  end.

Ltac respond H := rewrite (fetch_responded net _ _ _ H); step.

Ltac refuse F :=
  let r0 := fresh "r" in
  let Hn := fresh "Hnet" in
  let Ho := fresh "Hok" in
  destruct (unguarded_falls_through net _ _ F) as (r0 & Hn & Ho);
  rewrite (fetch_responded net _ _ _ Hn); step;
  rewrite ?ok_or_status by lia; rewrite Ho; step.

(** C4, amended: for every operation and every chain in which candidates
    [1..K] are left for the next one (a response outside the success range;
    or, where the method guards the candidate with [try]/[catch], also a
    transport error or a 2xx response from which the mapper builds no
    result) and candidate [K+1] completes with a 2xx status on which its
    mapper is defined, the operation returns that mapper's result, and the
    requests it sends on the chain are exactly those of candidates
    [1..K+1], in order: none goes to a later candidate. *)
Theorem fallback_chain_first_success
        (op : Operation) (s s1 : State) (urn : string) (K : nat) (cand : Candidate)
        (r : Http.Response Http.Data) (v : Value) :
  prepared net op s urn s1 ->
  nth_error (candidates (accessToken (this s1)) urn op) K = Some cand ->
  (forall i c, (i < K)%nat ->
               nth_error (candidates (accessToken (this s1)) urn op) i = Some c ->
               falls_through net c) ->
  succeeds_with net cand r ->
  mapper cand r = Some v ->
  fst (perform net op s) = Ok v
  /\ sent (snd (perform net op s))
     = (sent s1 ++ map request (firstn (S K) (candidates (accessToken (this s1)) urn op)))%list.
Proof.
  intros Hprep Hnth Hprev [Hnet Hok] Hmap.
  destruct op; cbn [prepared needs_identity] in Hprep.
  - (* identity resolution *)
    destruct Hprep as [Hcache ->].
    unfold perform, lift, getMemberUrn, token_of, bind, gets. rewrite Hcache. step.
    destruct K as [|[|[|K]]]; try (destruct K; discriminate); pick Hnth;
      cbn [mapper request] in Hmap, Hnet;
      destruct (urn_from_some _ _ _ Hmap) as (d & Hjson & Htruthy & ->).
    + rewrite (identity_probe_hit net _ _ _ _ _ Hnet Hok Hmap). step. tidy. split; reflexivity.
    + earlier Hprev 0%nat F0.
      rewrite (identity_probe_miss net _ _ _ F0). step.
      rewrite (identity_probe_hit net _ _ _ _ _ Hnet Hok Hmap). step. tidy. split; reflexivity.
    + earlier Hprev 0%nat F0. earlier Hprev 1%nat F1.
      rewrite (identity_probe_miss net _ _ _ F0). step.
      rewrite (identity_probe_miss net _ _ _ F1). step.
      rewrite (identity_probe_hit net _ _ _ _ _ Hnet Hok Hmap). step. tidy. split; reflexivity.
  - (* profile *)
    subst s1.
    unfold perform, lift, getProfile, token_of, bind, gets. step.
    destruct K as [|[|[|K]]]; try (destruct K; discriminate); pick Hnth;
      cbn [mapper request] in Hmap, Hnet.
    + destruct (profile_probe_hit net _ _ _ _ s Hnet Hok Hmap) as (p & -> & Hrun).
      rewrite Hrun. step. tidy. split; reflexivity.
    + earlier Hprev 0%nat F0.
      rewrite (profile_probe_miss net _ _ _ F0). step.
      destruct (profile_probe_hit net _ _ _ _
                  (after_request s (userinfo_request (accessToken (this s)))) Hnet Hok Hmap)
        as (p & -> & Hrun).
      rewrite Hrun. step. tidy. split; reflexivity.
    + earlier Hprev 0%nat F0. earlier Hprev 1%nat F1.
      rewrite (profile_probe_miss net _ _ _ F0). step.
      rewrite (profile_probe_miss net _ _ _ F1). step.
      respond Hnet. rewrite Hok. step.
      body_of Hmap d Hjson.
      unfold json_of. rewrite Hjson. step. tidy. split; reflexivity.
  - (* text post *)
    unfold perform, lift, createPost, token_of, bind, gets. rewrite Hprep. step.
    destruct K as [|[|K]]; try (destruct K; discriminate); pick Hnth;
      cbn [mapper request] in Hmap, Hnet.
    + respond Hnet. rewrite ok_or_status by lia. rewrite Hok. step.
      injection Hmap as <-. tidy. split; reflexivity.
    + earlier Hprev 0%nat F0. refuse F0.
      respond Hnet. rewrite ok_or_status by lia. rewrite Hok. step.
      body_of Hmap d Hjson.
      unfold json_of. rewrite Hjson. step. tidy. split; reflexivity.
  - (* article post *)
    unfold perform, lift, createArticlePost, token_of, bind, gets. rewrite Hprep. step.
    destruct K as [|[|K]]; try (destruct K; discriminate); pick Hnth;
      cbn [mapper request] in Hmap, Hnet.
    + respond Hnet. rewrite ok_or_status by lia. rewrite Hok. step.
      injection Hmap as <-. tidy. split; reflexivity.
    + earlier Hprev 0%nat F0. refuse F0.
      respond Hnet. rewrite ok_or_status by lia. rewrite Hok. step.
      body_of Hmap d Hjson.
      unfold json_of. rewrite Hjson. step. tidy. split; reflexivity.
  - (* list posts *)
    unfold perform, lift, getPosts, token_of, bind, gets. rewrite Hprep. step.
    destruct K as [|K]; try (destruct K; discriminate); pick Hnth;
      cbn [mapper request] in Hmap, Hnet.
    respond Hnet. rewrite Hok. step.
    body_of Hmap d Hjson.
    unfold json_of. rewrite Hjson. step. tidy. split; reflexivity.
  - (* delete *)
    subst s1.
    unfold perform, lift, deletePost, token_of, bind, gets. step.
    destruct K as [|[|K]]; try (destruct K; discriminate); pick Hnth;
      cbn [mapper request] in Hmap, Hnet.
    + respond Hnet. rewrite ok_or_status by lia. rewrite Hok. step.
      injection Hmap as <-. tidy. split; reflexivity.
    + earlier Hprev 0%nat F0. refuse F0.
      respond Hnet. rewrite ok_or_status by lia. rewrite Hok. step.
      injection Hmap as <-. tidy. split; reflexivity.
  - (* connection count *)
    subst s1.
    unfold perform, lift, getConnectionsCount, token_of, bind, gets. step.
    destruct K as [|K]; try (destruct K; discriminate); pick Hnth;
      cbn [mapper request] in Hmap, Hnet.
    respond Hnet. rewrite Hok. step.
    body_of Hmap d Hjson.
    unfold json_of. rewrite Hjson. step. tidy. split; reflexivity.
Qed.

Ltac member Hall n F :=
  match n with
  | 0%nat => pose proof (Hall _ (or_introl eq_refl)) as F
  | 1%nat => pose proof (Hall _ (or_intror (or_introl eq_refl))) as F
  | 2%nat => pose proof (Hall _ (or_intror (or_intror (or_introl eq_refl)))) as F
  end.

(** C1, amended: when every candidate is left for the next one, listing
    posts and reading the connection count return their soft-failure
    result, which carries a message, and do not raise (listing posts once
    the member URN is known); identity resolution and the profile fetch
    raise an error with a fixed explanatory message. *)
Theorem read_only_chain_exhausted (op : Operation) (s s1 : State) (urn : string) :
  read_only op = true ->
  prepared net op s urn s1 ->
  (forall c, In c (candidates (accessToken (this s1)) urn op) -> falls_through net c) ->
  match op with
  | GetPosts _ =>
      fst (perform net op s) = Ok (PostsValue posts_unavailable)
      /\ soft_failure (PostsValue posts_unavailable)
  | GetConnectionsCount =>
      fst (perform net op s) = Ok (ConnectionsValue connections_unavailable)
      /\ soft_failure (ConnectionsValue connections_unavailable)
  | GetMemberUrn => fst (perform net op s) = Throw (Error unable_to_determine)
  | GetProfile => fst (perform net op s) = Throw (Error "Failed to fetch profile")
  | _ => True
  end.
Proof.
  intros Hread Hprep Hall.
  destruct op; try discriminate Hread; cbn [prepared needs_identity] in Hprep;
    cbn [candidates] in Hall.
  - destruct Hprep as [Hcache ->].
    unfold perform, lift, getMemberUrn, token_of, bind, gets. rewrite Hcache. step.
    member Hall 0%nat F0. member Hall 1%nat F1. member Hall 2%nat F2.
    rewrite (identity_probe_miss net _ _ _ F0). step.
    rewrite (identity_probe_miss net _ _ _ F1). step.
    rewrite (identity_probe_miss net _ _ _ F2). step.
    reflexivity.
  - subst s1.
    unfold perform, lift, getProfile, token_of, bind, gets. step.
    member Hall 0%nat F0. member Hall 1%nat F1. member Hall 2%nat F2.
    rewrite (profile_probe_miss net _ _ _ F0). step.
    rewrite (profile_probe_miss net _ _ _ F1). step.
    refuse F2. reflexivity.
  - unfold perform, lift, getPosts, token_of, bind, gets. rewrite Hprep. step.
    member Hall 0%nat F0. refuse F0.
    split; [reflexivity|]. cbn. eexists; reflexivity.
  - subst s1.
    unfold perform, lift, getConnectionsCount, token_of, bind, gets. step.
    member Hall 0%nat F0. refuse F0.
    split; [reflexivity|]. cbn. eexists; reflexivity.
Qed.

(** C3, amended: when every candidate answers outside the success range,
    creating a post and creating an article post raise an error whose
    message carries the status code and the body of the last candidate's
    response; deleting a post does not raise: it returns
    [{success: false, message}] where the message carries the last status
    code only. *)
Theorem mutating_chain_exhausted (op : Operation) (s s1 : State) (urn : string)
        (final : Candidate) (r : Http.Response Http.Data) :
  mutating op = true ->
  prepared net op s urn s1 ->
  (forall c, In c (candidates (accessToken (this s1)) urn op) -> falls_through net c) ->
  nth_error (candidates (accessToken (this s1)) urn op)
            (List.length (candidates (accessToken (this s1)) urn op) - 1) = Some final ->
  net (request final) = Http.Responded r ->
  match op with
  | CreatePost _ _ =>
      fst (perform net op s)
      = Throw (Error ("Failed to create post: " ++ JS.string_of_number (Http.status r)
                      ++ " - " ++ Http.text r))
  | CreateArticlePost _ _ _ _ _ =>
      fst (perform net op s)
      = Throw (Error ("Failed to create article post: "
                      ++ JS.string_of_number (Http.status r) ++ " - " ++ Http.text r))
  | DeletePost _ =>
      fst (perform net op s)
      = Ok (DeleteValue {| deleted := false;
                           delete_message :=
                             Some ("Failed to delete post: "
                                   ++ JS.string_of_number (Http.status r)) |})
  | _ => True
  end.
Proof.
  intros Hmut Hprep Hall Hlast Hr.
  destruct op; try discriminate Hmut; cbn [prepared needs_identity] in Hprep;
    cbn [candidates] in Hall; cbn [candidates List.length Nat.sub nth_error] in Hlast;
    injection Hlast as <-; cbn [request] in Hr.
  - unfold perform, lift, createPost, token_of, bind, gets. rewrite Hprep. step.
    member Hall 0%nat F0. member Hall 1%nat F1.
    refuse F0.
    destruct (unguarded_falls_through net _ _ F1) as (r1 & Hnet1 & Hok1).
    assert (r1 = r) by congruence. subst r1.
    respond Hr. rewrite ok_or_status by lia. rewrite Hok1. step. reflexivity.
  - unfold perform, lift, createArticlePost, token_of, bind, gets. rewrite Hprep. step.
    member Hall 0%nat F0. member Hall 1%nat F1.
    refuse F0.
    destruct (unguarded_falls_through net _ _ F1) as (r1 & Hnet1 & Hok1).
    assert (r1 = r) by congruence. subst r1.
    respond Hr. rewrite ok_or_status by lia. rewrite Hok1. step. reflexivity.
  - subst s1.
    unfold perform, lift, deletePost, token_of, bind, gets. step.
    member Hall 0%nat F0. member Hall 1%nat F1.
    refuse F0.
    destruct (unguarded_falls_through net _ _ F1) as (r1 & Hnet1 & Hok1).
    assert (r1 = r) by congruence. subst r1.
    respond Hr. rewrite ok_or_status by lia. rewrite Hok1. step. reflexivity.
Qed.

Lemma not_legacy (token : string) (q : Http.Request) :
  q = rest_me_request token \/ q = userinfo_request token \/ q = v2_me_request token ->
  Http.url q <> LINKEDIN_API_URL ++ "/v2/ugcPosts".
Proof.
  intros [-> | [-> | ->]]; cbn; discriminate.
Qed.

(** C8: [createArticlePost("hi", "https://a.com", "T", "D", "PUBLIC")],
    when the posts endpoint of the current generation answers 201 with the
    header [x-restli-id: post123], returns [{success: true, id: "post123"}];
    the requests of the call are those of identity resolution followed by
    the one POST to [/rest/posts], and none of them goes to the legacy
    endpoint [/v2/ugcPosts]. *)
Theorem createArticlePost_current_generation_example
        (s s1 : State) (urn : string) (r : Http.Response Http.Data) :
  getMemberUrn net s = (Ok urn, s1) ->
  net (rest_posts_request (accessToken (this s1))
         (articlePostData urn "hi" "https://a.com" (Some "T") (Some "D") PUBLIC))
  = Http.Responded r ->
  Http.status r = 201 ->
  Http.headers_get "x-restli-id" r = Some "post123" ->
  fst (createArticlePost net "hi" "https://a.com" (Some "T") (Some "D") PUBLIC s)
  = Ok {| success := true; id := Some "post123"; message := None |}
  /\ exists before,
      sent (snd (createArticlePost net "hi" "https://a.com" (Some "T") (Some "D") PUBLIC s))
      = (sent s ++ before
         ++ [rest_posts_request (accessToken (this s1))
               (articlePostData urn "hi" "https://a.com" (Some "T") (Some "D") PUBLIC)])%list
      /\ Forall (fun q => Http.url q <> LINKEDIN_API_URL ++ "/v2/ugcPosts")
                (before
                 ++ [rest_posts_request (accessToken (this s1))
                       (articlePostData urn "hi" "https://a.com" (Some "T") (Some "D")
                                        PUBLIC)])%list.
Proof.
  intros Hprep Hnet Hstatus Hheader.
  assert (Hok : Http.ok r = true) by (unfold Http.ok; rewrite Hstatus; reflexivity).
  destruct (getMemberUrn_requests net s) as (before & Hsent & Htok & Hbefore).
  rewrite Hprep in Hsent, Htok. cbn [snd] in Hsent, Htok.
  unfold createArticlePost, token_of, bind, gets. rewrite Hprep. step.
  respond Hnet. rewrite ok_or_status by lia. rewrite Hok. step.
  split.
  - unfold ret, created_from_header. cbn [fst]. rewrite Hheader. reflexivity.
  - exists before. tidy. rewrite Hsent, <- app_assoc. split; [reflexivity|].
    apply Forall_app. split.
    + eapply Forall_impl; [|exact Hbefore]. intros q Hq. exact (not_legacy _ q Hq).
    + apply Forall_cons; [cbn; discriminate|apply Forall_nil].
Qed.

(** C9: when the posts endpoint of the current generation answers with a
    2xx status and the response has no [x-restli-id] header, [createPost]
    and [createArticlePost] return success with the identifier
    ["created"]. *)
Theorem created_without_identifier_header (s s1 : State) (urn : string) :
  getMemberUrn net s = (Ok urn, s1) ->
  (forall (text : string) (visibility : Visibility) (r : Http.Response Http.Data),
      net (rest_posts_request (accessToken (this s1)) (postData urn text visibility))
      = Http.Responded r ->
      Http.ok r = true ->
      Http.headers_get "x-restli-id" r = None ->
      fst (createPost net text visibility s)
      = Ok {| success := true; id := Some "created"; message := None |})
  /\ (forall (text articleUrl : string) (title description : option string)
             (visibility : Visibility) (r : Http.Response Http.Data),
         net (rest_posts_request (accessToken (this s1))
                (articlePostData urn text articleUrl title description visibility))
         = Http.Responded r ->
         Http.ok r = true ->
         Http.headers_get "x-restli-id" r = None ->
         fst (createArticlePost net text articleUrl title description visibility s)
         = Ok {| success := true; id := Some "created"; message := None |}).
Proof.
  intros Hprep. split.
  - intros text visibility r Hnet Hok Hheader.
    unfold createPost, token_of, bind, gets. rewrite Hprep. step.
    respond Hnet. rewrite ok_or_status by lia. rewrite Hok. step.
    unfold ret, created_from_header. cbn [fst]. rewrite Hheader. reflexivity.
  - intros text articleUrl title description visibility r Hnet Hok Hheader.
    unfold createArticlePost, token_of, bind, gets. rewrite Hprep. step.
    respond Hnet. rewrite ok_or_status by lia. rewrite Hok. step.
    unfold ret, created_from_header. cbn [fst]. rewrite Hheader. reflexivity.
Qed.

End ChainFacts.

(* ================================================================== *)
(** ** The client on concrete answers *)

(** C1, as stated, fails: with every endpoint answering 500, every
    candidate of the profile fetch fails, and the method raises. *)
Lemma getProfile_raises_when_exhausted :
  (forall c, In c (Client.candidates "AQX" EmptyString Client.GetProfile) ->
             Client.fails Scenario.all_500 c)
  /\ fst (Client.getProfile Scenario.all_500 Scenario.fresh)
     = Throw (Error "Failed to fetch profile")
  /\ forall v, fst (Client.perform Scenario.all_500 Client.GetProfile Scenario.fresh) <> Ok v.
Proof.
  split; [|split].
  - intros c _. right. eexists. split; reflexivity.
  - reflexivity.
  - intros v. vm_compute. discriminate.
Qed.

Lemma read_only_chain_exhausted_example :
  fst (Client.perform Scenario.all_500 (Client.GetPosts 10) Scenario.identified)
  = Ok (Client.PostsValue Client.posts_unavailable)
  /\ Client.soft_failure (Client.PostsValue Client.posts_unavailable).
Proof.
  apply (read_only_chain_exhausted Scenario.all_500 (Client.GetPosts 10)
           Scenario.identified Scenario.identified "urn:li:person:m1").
  - reflexivity.
  - reflexivity.
  - intros c _. left. eexists. split; reflexivity.
Defined.

(** C3, as stated, fails: with every endpoint answering 500, both
    candidates of [deletePost] fail, and the method returns a value, whose
    message has the status code and not the body. *)
Lemma deletePost_returns_when_exhausted :
  (forall c, In c (Client.candidates "AQX" EmptyString (Client.DeletePost "post123")) ->
             Client.fails Scenario.all_500 c)
  /\ fst (Client.deletePost Scenario.all_500 "post123" Scenario.fresh)
     = Ok {| Client.deleted := false;
             Client.delete_message := Some "Failed to delete post: 500" |}
  /\ forall e, fst (Client.perform Scenario.all_500 (Client.DeletePost "post123")
                      Scenario.fresh) <> Throw e.
Proof.
  split; [|split].
  - intros c _. right. eexists. split; reflexivity.
  - reflexivity.
  - intros e. vm_compute. discriminate.
Qed.

Lemma mutating_chain_exhausted_example :
  fst (Client.perform Scenario.all_500 (Client.CreatePost "hi" Client.PUBLIC)
         Scenario.identified)
  = Throw (Error "Failed to create post: 500 - Internal Server Error").
Proof.
  apply (mutating_chain_exhausted Scenario.all_500 (Client.CreatePost "hi" Client.PUBLIC)
           Scenario.identified Scenario.identified "urn:li:person:m1"
           {| Client.request :=
                Client.ugcPosts_request "AQX"
                  (Client.legacyPostData "urn:li:person:m1" "hi" Client.PUBLIC);
              Client.guarded := false;
              Client.mapper :=
                Client.from_body (fun d => Client.PostValue (Client.created_from_body d)) |}
           (Scenario.reply 500 [] "Internal Server Error" None)).
  - reflexivity.
  - reflexivity.
  - intros c _. left. eexists. split; reflexivity.
  - reflexivity.
  - reflexivity.
Defined.

(** C4, as stated, fails: the first candidate of [createPost] fails by a
    transport error and the second would complete with 201, but the method
    raises the transport error and never sends the second request. *)
Lemma transport_error_stops_createPost :
  exists c1 c2 r2 v2,
    Client.candidates "AQX" "urn:li:person:m1" (Client.CreatePost "hi" Client.PUBLIC)
    = [c1; c2]
    /\ Client.fails Scenario.posts_unreachable c1
    /\ Client.succeeds_with Scenario.posts_unreachable c2 r2
    /\ Client.mapper c2 r2 = Some v2
    /\ fst (Client.perform Scenario.posts_unreachable
              (Client.CreatePost "hi" Client.PUBLIC) Scenario.identified)
       = Throw FetchError
    /\ fst (Client.perform Scenario.posts_unreachable
              (Client.CreatePost "hi" Client.PUBLIC) Scenario.identified)
       <> Ok v2
    /\ Client.sent (snd (Client.perform Scenario.posts_unreachable
                           (Client.CreatePost "hi" Client.PUBLIC) Scenario.identified))
       = [Client.request c1].
Proof.
  do 4 eexists.
  split; [reflexivity|].
  split; [left; reflexivity|].
  split; [split; reflexivity|].
  split; [reflexivity|].
  split; [reflexivity|].
  split; [vm_compute; discriminate|reflexivity].
Qed.

Lemma fallback_chain_first_success_example :
  fst (Client.perform Scenario.anonymous_rest_me Client.GetMemberUrn Scenario.fresh)
  = Ok (Client.UrnValue "urn:li:person:m1")
  /\ Client.sent (snd (Client.perform Scenario.anonymous_rest_me Client.GetMemberUrn
                         Scenario.fresh))
     = [Client.rest_me_request "AQX"; Client.userinfo_request "AQX"].
Proof.
  apply (fallback_chain_first_success Scenario.anonymous_rest_me Client.GetMemberUrn
           Scenario.fresh Scenario.fresh EmptyString 1%nat
           {| Client.request := Client.userinfo_request "AQX";
              Client.guarded := true;
              Client.mapper := Client.urn_from Http.sub |}
           (Scenario.reply 200 [] "{...}" (Some (Scenario.with_sub "m1")))
           (Client.UrnValue "urn:li:person:m1")).
  - split; reflexivity.
  - reflexivity.
  - intros i c Hi Hc. destruct i as [|i]; [|lia].
    injection Hc as <-. right. right. split; [reflexivity|].
    eexists. repeat split; reflexivity.
  - split; reflexivity.
  - reflexivity.
Defined.

Lemma createArticlePost_current_generation_run :
  fst (Client.createArticlePost (Scenario.posts_201 [("x-restli-id", "post123")])
         "hi" "https://a.com" (Some "T") (Some "D") Client.PUBLIC Scenario.fresh)
  = Ok {| Client.success := true; Client.id := Some "post123"; Client.message := None |}.
Proof.
  apply (proj1 (createArticlePost_current_generation_example
                  (Scenario.posts_201 [("x-restli-id", "post123")])
                  Scenario.fresh
                  (snd (Client.getMemberUrn (Scenario.posts_201 [("x-restli-id", "post123")])
                          Scenario.fresh))
                  "urn:li:person:m1"
                  (Scenario.reply 201 [("x-restli-id", "post123")] EmptyString None)
                  eq_refl eq_refl eq_refl eq_refl)).
Defined.

Lemma created_without_identifier_header_run :
  fst (Client.createPost (Scenario.posts_201 []) "hi" Client.PUBLIC Scenario.fresh)
  = Ok {| Client.success := true; Client.id := Some "created"; Client.message := None |}.
Proof.
  apply (proj1 (created_without_identifier_header (Scenario.posts_201 []) Scenario.fresh
                  (snd (Client.getMemberUrn (Scenario.posts_201 []) Scenario.fresh))
                  "urn:li:person:m1" eq_refl)
           "hi" Client.PUBLIC (Scenario.reply 201 [] EmptyString None));
    reflexivity.
Defined.

Lemma isAuthenticated_iff_example :
  Auth.isAuthenticated (Scenario.world_at 5 (Auth.Holds (Scenario.token_with_expiry 10))) = true.
Proof.
  apply (proj2 (isAuthenticated_iff
                  (Scenario.world_at 5 (Auth.Holds (Scenario.token_with_expiry 10))))).
  exists (Scenario.token_with_expiry 10).
  split; [reflexivity|]. right. cbn. lia.
Defined.

(* ================================================================== *)
(** ** Further properties of the token store *)

Section TokenStoreMore.

Import Auth.

(** X1: [getAccessToken()] yields a token exactly when [isAuthenticated()]
    holds, and the token is the stored [access_token]. *)
Theorem getAccessToken_iff_isAuthenticated (w : World) (tok : string) :
  getAccessToken w = Some tok <->
  isAuthenticated w = true /\ exists t, loadToken w = Some t /\ access_token t = tok.
Proof.
  unfold getAccessToken, isAuthenticated.
  destruct (loadToken w) as [t|].
  - destruct (JS.truthy_num (expires_at t) && (now w >=? expires_at t)); split.
    + discriminate.
    + intros [H _]; discriminate.
    + intros H; injection H as <-. split; [reflexivity|]. exists t; split; reflexivity.
    + intros [_ (t' & Ht' & <-)]. injection Ht' as <-. reflexivity.
  - split; [discriminate|]. intros [H _]; discriminate.
Qed.

(** X2: while the token file is not rewritten, an expired or missing token
    stays so as the clock moves on: nothing refreshes it. *)
Theorem expired_stays_expired (w w' : World) :
  token_file w' = token_file w ->
  now w <= now w' ->
  isAuthenticated w = false ->
  isAuthenticated w' = false /\ getAccessToken w' = None.
Proof.
  intros Hfile Hclock.
  unfold isAuthenticated, getAccessToken, loadToken. rewrite Hfile.
  destruct (token_file w) as [| |t]; try (intros _; split; reflexivity).
  destruct (JS.truthy_num (expires_at t)) eqn:Htruthy; cbn [andb].
  - destruct (now w >=? expires_at t) eqn:Hge; [|discriminate].
    intros _. rewrite Z.geb_leb in Hge. apply Z.leb_le in Hge.
    assert (Hge' : (now w' >=? expires_at t) = true)
      by (rewrite Z.geb_leb; apply Z.leb_le; lia).
    rewrite Hge'. split; reflexivity.
  - discriminate.
Qed.

End TokenStoreMore.

Lemma expired_stays_expired_example :
  Auth.isAuthenticated (Scenario.world_at 900 (Auth.Holds (Scenario.token_with_expiry 500)))
  = false
  /\ Auth.getAccessToken (Scenario.world_at 900 (Auth.Holds (Scenario.token_with_expiry 500)))
     = None.
Proof.
  apply (expired_stays_expired
           (Scenario.world_at 600 (Auth.Holds (Scenario.token_with_expiry 500)))
           (Scenario.world_at 900 (Auth.Holds (Scenario.token_with_expiry 500)))).
  - reflexivity.
  - cbn. lia.
  - reflexivity.
Defined.

Lemma getAccessToken_iff_isAuthenticated_example :
  Auth.getAccessToken (Scenario.world_at 5 (Auth.Holds (Scenario.token_with_expiry 10)))
  = Some "AQX".
Proof.
  apply (proj2 (getAccessToken_iff_isAuthenticated
                  (Scenario.world_at 5 (Auth.Holds (Scenario.token_with_expiry 10))) "AQX")).
  split; [reflexivity|]. exists (Scenario.token_with_expiry 10). split; reflexivity.
Defined.

(* ================================================================== *)
(** ** Further properties of the authorization flow *)

Section FlowMore.

Import Auth.

Variable env : Env.

(** X3: [fetchUserInfo] never rejects.  It asks [/v2/userinfo] first and
    [/rest/me] only when the first answer is not usable, and it returns the
    empty record when neither is. *)
Theorem fetchUserInfo_soft (accessToken : string) (w : World) :
  exists info w',
    fetchUserInfo env accessToken w = (Ok info, w')
    /\ same_files w w'
    /\ match Trace.usable (api_server env (userinfo_request accessToken)) with
       | Some data =>
           sent w' = (sent w ++ [userinfo_request accessToken])%list
           /\ info = {| info_sub := Http.sub data; info_name := Http.name data;
                        info_email := Http.email data |}
       | None =>
           sent w' = (sent w ++ [userinfo_request accessToken;
                                 rest_me_request accessToken])%list
           /\ match Trace.usable (api_server env (rest_me_request accessToken)) with
              | Some data =>
                  info = {| info_sub := JS.or_else (Http.sub data) (Http.id data);
                            info_name := JS.or_else (Http.name data)
                                                    (Http.localizedFirstName data);
                            info_email := None |}
              | None => info = no_info
              end
       end.
Proof.
  unfold fetchUserInfo, attempt, try_catch, bind, fetch, json_of, ret, throw, Trace.usable.
  destruct (api_server env (userinfo_request accessToken)) as [|r1];
    [|destruct (Http.ok r1); [destruct (Http.json r1)|]];
    cbn;
    try (do 2 eexists; split; [reflexivity|]; split; [repeat split|]; split; reflexivity);
    (destruct (api_server env (rest_me_request accessToken)) as [|r2];
     [|destruct (Http.ok r2); [destruct (Http.json r2)|]];
     cbn; do 2 eexists; (split; [reflexivity|]); (split; [repeat split|]);
     rewrite <- app_assoc; split; reflexivity).
Qed.

Lemma handler_keeps_closed (callbackPath : string) (req : Incoming) (l : Listener) :
  Trace.closed_if_resolved l -> Trace.closed_if_resolved (handler callbackPath req l).
Proof.
  unfold Trace.closed_if_resolved. intros Hl code.
  destruct req as [|p q]; cbn [handler].
  - unfold settle; cbn. destruct (flow l) eqn:Hf; try discriminate.
    intros H; apply (Hl code); congruence.
  - destruct (String.eqb p callbackPath); [|apply Hl].
    destruct (JS.truthy (JS.params_get "error" q)).
    + unfold settle, respond; cbn. destruct (flow l) eqn:Hf; try discriminate.
      intros H; apply (Hl code); congruence.
    + destruct (JS.truthy (JS.params_get "code" q)).
      * intros _; reflexivity.
      * unfold settle, respond; cbn. destruct (flow l) eqn:Hf; try discriminate.
        intros H; apply (Hl code); congruence.
Qed.

Lemma serve_keeps_closed (callbackPath : string) (reqs : list Incoming) :
  forall l, Trace.closed_if_resolved l -> Trace.closed_if_resolved (serve callbackPath reqs l).
Proof.
  induction reqs as [|req more IH]; intros l Hl; cbn [serve]; [exact Hl|].
  destruct (flow l) eqn:Hf; try exact Hl.
  destruct (listening l); [|exact Hl].
  apply IH. apply handler_keeps_closed. exact Hl.
Qed.

(** Once the promise is settled, or the server closed, no request is
    handled. *)
Lemma serve_stuck (callbackPath : string) (reqs : list Incoming) (l : Listener) :
  flow l <> Pending \/ listening l = false ->
  serve callbackPath reqs l = l.
Proof.
  intros H. destruct reqs as [|req more]; [reflexivity|]. cbn [serve].
  destruct (flow l) eqn:Hf; try reflexivity.
  destruct H as [H|H]; [contradiction|]. rewrite H. reflexivity.
Qed.

Lemma serve_skips (callbackPath : string) (others rest : list Incoming) :
  Forall (Trace.elsewhere callbackPath) others ->
  forall l, serve callbackPath (others ++ rest) l = serve callbackPath rest l.
Proof.
  induction 1 as [|req others (p & q & -> & Hneq) _ IH]; intros l; [reflexivity|].
  cbn [List.app serve].
  destruct (flow l) eqn:Hf;
    try (symmetry; apply serve_stuck; left; congruence).
  destruct (listening l) eqn:Hl;
    [|symmetry; apply serve_stuck; right; exact Hl].
  rewrite (handler_other_path _ _ q l Hneq). apply IH.
Qed.

(** X6: requests for other paths that arrive before the callback are
    passed over: the listener ends in the state that the remaining requests
    alone would have produced. *)
Theorem serve_ignores_other_paths (callbackPath : string) (others rest : list Incoming)
        (l : Listener) :
  Forall (Trace.elsewhere callbackPath) others ->
  serve callbackPath (others ++ rest) l = serve callbackPath rest l.
Proof.
  intros H. apply serve_skips. exact H.
Qed.

(** X7: on the callback path an [error] parameter decides first: the flow
    is rejected with the OAuth error and answered 400, whatever [code] the
    request also carries.  Without [error], a [code] resolves the flow with
    that code, answers 200 and closes the server, whatever other parameters
    (such as [state]) come with it. *)
Theorem callback_outcome (callbackPath : string) (q : JS.URLSearchParams) (l : Listener) :
  flow l = Pending ->
  (forall e, JS.params_get "error" q = Some e -> e <> EmptyString ->
             flow (handler callbackPath (Target callbackPath q) l)
             = Rejected (Error ("OAuth error: " ++ e))
             /\ listening (handler callbackPath (Target callbackPath q) l) = listening l
             /\ map reply_status (replies (handler callbackPath (Target callbackPath q) l))
                = (map reply_status (replies l) ++ [400])%list)
  /\ (forall c, JS.truthy (JS.params_get "error" q) = false ->
                JS.params_get "code" q = Some c -> c <> EmptyString ->
                flow (handler callbackPath (Target callbackPath q) l) = Resolved c
                /\ listening (handler callbackPath (Target callbackPath q) l) = false
                /\ map reply_status (replies (handler callbackPath (Target callbackPath q) l))
                   = (map reply_status (replies l) ++ [200])%list).
Proof.
  intros Hpending. split.
  - intros e He Hne. unfold handler. rewrite String.eqb_refl, He.
    assert (Ht : JS.truthy (Some e) = true) by (destruct e; [contradiction|reflexivity]).
    rewrite Ht. unfold settle, respond; cbn. rewrite Hpending, map_app. repeat split.
  - intros c Herr Hc Hne. unfold handler. rewrite String.eqb_refl, Herr, Hc.
    assert (Ht : JS.truthy (Some c) = true) by (destruct c; [contradiction|reflexivity]).
    rewrite Ht. unfold settle, close, respond; cbn. rewrite Hpending, map_app. repeat split.
Qed.

Lemma authenticateInteractive_unfold (w : World) (creds : Credentials) (parts : UrlParts) :
  loadCredentials w = Some creds ->
  parse_url env (redirectUri_of creds) = Some parts ->
  authenticateInteractive env w
  = bind (await_code env (callbackHost_of parts) (callbackPort_of parts)
                     (callbackPath_of parts) (authUrl env creds (redirectUri_of creds)))
         (fun code =>
            bind (exchangeCodeForToken env code creds (redirectUri_of creds))
                 (fun tokenData =>
                    bind (fetchUserInfo env (access_token tokenData))
                         (fun userInfo =>
                            bind (saveToken
                                    {| access_token := access_token tokenData;
                                       expires_in := expires_in tokenData;
                                       expires_at := expires_at tokenData;
                                       scope := scope tokenData;
                                       token_type := token_type tokenData;
                                       id_token := id_token tokenData;
                                       sub := info_sub userInfo;
                                       name := info_name userInfo;
                                       email := info_email userInfo |})
                                 (fun _ =>
                                    ret {| access_token := access_token tokenData;
                                           expires_in := expires_in tokenData;
                                           expires_at := expires_at tokenData;
                                           scope := scope tokenData;
                                           token_type := token_type tokenData;
                                           id_token := id_token tokenData;
                                           sub := info_sub userInfo;
                                           name := info_name userInfo;
                                           email := info_email userInfo |})))) w.
Proof.
  intros Hcreds Hparse.
  unfold authenticateInteractive. unfold bind at 1. unfold gets at 1.
  rewrite Hcreds, Hparse. reflexivity.
Qed.

Lemma await_code_files (h : string) (p : Z) (path url : string) (w : World) :
  credentials_file (snd (await_code env h p path url w)) = credentials_file w
  /\ token_file (snd (await_code env h p path url w)) = token_file w
  /\ sent (snd (await_code env h p path url w)) = sent w.
Proof.
  unfold await_code.
  destruct (flow (serve path (incoming env) (createServer h p))); repeat split.
Qed.

Lemma bind_ok {S A B} (m : M S A) (k : A -> M S B) (s s' : S) (a : A) :
  m s = (Ok a, s') -> bind m k s = k a s'.
Proof. intros H; unfold bind; rewrite H; reflexivity. Qed.

Lemma bind_throw {S A B} (m : M S A) (k : A -> M S B) (s s' : S) (e : exn) :
  m s = (Throw e, s') -> bind m k s = (Throw e, s').
Proof. intros H; unfold bind; rewrite H; reflexivity. Qed.

Lemma bind_hang {S A B} (m : M S A) (k : A -> M S B) (s s' : S) :
  m s = (Hang, s') -> bind m k s = (Hang, s').
Proof. intros H; unfold bind; rewrite H; reflexivity. Qed.

Lemma flow_files (w : World) :
  credentials_file (snd (authenticateInteractive env w)) = credentials_file w
  /\ match fst (authenticateInteractive env w) with
     | Ok t => token_file (snd (authenticateInteractive env w)) = Holds t
     | _ => token_file (snd (authenticateInteractive env w)) = token_file w
     end.
Proof.
  destruct (loadCredentials w) as [creds|] eqn:Hcreds.
  2:{ assert (E : authenticateInteractive env w = (Throw (Error (credentials_missing env)), w))
        by (unfold authenticateInteractive, bind, gets; rewrite Hcreds; reflexivity).
      rewrite E. split; reflexivity. }
  destruct (parse_url env (redirectUri_of creds)) as [parts|] eqn:Hparse.
  2:{ assert (E : authenticateInteractive env w = (Throw InvalidUrlError, w))
        by (unfold authenticateInteractive, bind, gets; rewrite Hcreds, Hparse;
            reflexivity).
      rewrite E. split; reflexivity. }
  rewrite (authenticateInteractive_unfold w creds parts Hcreds Hparse).
  pose proof (await_code_files (callbackHost_of parts) (callbackPort_of parts)
                (callbackPath_of parts) (authUrl env creds (redirectUri_of creds)) w)
    as (Hc0 & Ht0 & _).
  destruct (await_code env _ _ _ _ w) as [[code|e|] w0] eqn:E0; cbn [snd] in Hc0, Ht0;
    [rewrite (bind_ok _ _ _ _ _ E0)
    |rewrite (bind_throw _ _ _ _ _ E0); split; assumption
    |rewrite (bind_hang _ _ _ _ E0); split; assumption].
  pose proof (exchangeCodeForToken_frame env code creds (redirectUri_of creds) w0)
    as (Hc1 & Ht1 & _).
  destruct (exchangeCodeForToken env code creds (redirectUri_of creds) w0)
    as [[t0|e|] w1] eqn:E1; cbn [snd] in Hc1, Ht1;
    [rewrite (bind_ok _ _ _ _ _ E1)
    |rewrite (bind_throw _ _ _ _ _ E1); cbn [fst snd]; split; congruence
    |rewrite (bind_hang _ _ _ _ E1); cbn [fst snd]; split; congruence].
  destruct (fetchUserInfo_returns env (access_token t0) w1)
    as (info & w2 & Hinfo & (Hc2 & Ht2 & _)).
  rewrite (bind_ok _ _ _ _ _ Hinfo). cbn. split; [congruence|reflexivity].
Qed.

(** X4: the flow writes the token file only when it succeeds, and then it
    writes the record it returns; on every other outcome (missing
    credentials, denial, refused exchange, no callback at all) the stored
    token is what it was.  The credentials file is never written.  The
    [auth] command exits with 0 exactly in the first case. *)
Theorem token_file_written_only_on_success (w : World) :
  credentials_file (snd (authenticateInteractive env w)) = credentials_file w
  /\ match fst (authenticateInteractive env w) with
     | Ok t => token_file (snd (authenticateInteractive env w)) = Holds t
     | _ => token_file (snd (authenticateInteractive env w)) = token_file w
     end
  /\ (fst (Server.auth_main env w) = Some 0 <->
      exists t, fst (authenticateInteractive env w) = Ok t).
Proof.
  destruct (flow_files w) as [Hc Ht].
  split; [exact Hc|]. split; [exact Ht|].
  unfold Server.auth_main.
  destruct (authenticateInteractive env w) as [[t|e|] w']; cbn; split;
    try discriminate; try (intros [t' H]; discriminate).
  - intros _; exists t; reflexivity.
  - reflexivity.
Qed.

(** X5: when the provider refuses the code, the flow raises
    [Token exchange failed: <body>] with the body of the provider's answer;
    the token request is the only request it has sent, the token file is
    untouched, and the listener is closed, because the callback that
    brought the code had closed it. *)
Theorem refused_exchange (w : World) (creds : Credentials) (parts : UrlParts)
        (code : string) (r : Http.Response TokenJson) :
  loadCredentials w = Some creds ->
  parse_url env (redirectUri_of creds) = Some parts ->
  flow (serve (callbackPath_of parts) (incoming env)
              (createServer (callbackHost_of parts) (callbackPort_of parts)))
  = Resolved code ->
  token_server env (token_request code creds (redirectUri_of creds)) = Http.Responded r ->
  Http.ok r = false ->
  fst (authenticateInteractive env w)
  = Throw (Error ("Token exchange failed: " ++ Http.text r))
  /\ sent (snd (authenticateInteractive env w))
     = (sent w ++ [token_request code creds (redirectUri_of creds)])%list
  /\ option_map listening (listener (snd (authenticateInteractive env w))) = Some false
  /\ token_file (snd (authenticateInteractive env w)) = token_file w.
Proof.
  intros Hcreds Hparse Hcode Hnet Hok.
  assert (Hclosed : listening (serve (callbackPath_of parts) (incoming env)
                                     (createServer (callbackHost_of parts)
                                                   (callbackPort_of parts))) = false).
  { apply (serve_keeps_closed (callbackPath_of parts) (incoming env)
             (createServer (callbackHost_of parts) (callbackPort_of parts))) with (code := code).
    - intros c H; discriminate.
    - exact Hcode. }
  rewrite (authenticateInteractive_unfold w creds parts Hcreds Hparse).
  rewrite (bind_ok _ _ _ _ _ (await_code_resolved env _ _ _ _ w code Hcode)).
  assert (Hex : forall w0,
             exchangeCodeForToken env code creds (redirectUri_of creds) w0
             = (Throw (Error ("Token exchange failed: " ++ Http.text r)),
                set_sent w0 (sent w0 ++ [token_request code creds (redirectUri_of creds)])%list
                        (now w0 + latency env (token_request code creds (redirectUri_of creds))))).
  { intros w0. unfold exchangeCodeForToken, bind, fetch_token. rewrite Hnet, Hok.
    reflexivity. }
  rewrite (bind_throw _ _ _ _ _ (Hex _)).
  cbn [fst snd set_sent set_listener sent listener token_file option_map].
  rewrite Hclosed. repeat split.
Qed.

(** X8: when every request that reaches the listener is for another path,
    the flow never returns: it has no timeout.  It has sent no request, the
    listener is still open, and the [auth] command does not exit. *)
Theorem abandoned_authorization_hangs (w : World) (creds : Credentials) (parts : UrlParts) :
  loadCredentials w = Some creds ->
  parse_url env (redirectUri_of creds) = Some parts ->
  Forall (Trace.elsewhere (callbackPath_of parts)) (incoming env) ->
  fst (authenticateInteractive env w) = Hang
  /\ sent (snd (authenticateInteractive env w)) = sent w
  /\ option_map listening (listener (snd (authenticateInteractive env w))) = Some true
  /\ fst (Server.auth_main env w) = None.
Proof.
  intros Hcreds Hparse Hothers.
  assert (Hserve : serve (callbackPath_of parts) (incoming env)
                         (createServer (callbackHost_of parts) (callbackPort_of parts))
                   = createServer (callbackHost_of parts) (callbackPort_of parts)).
  { rewrite <- (app_nil_r (incoming env)).
    rewrite (serve_skips _ _ [] Hothers). reflexivity. }
  assert (Hrun : authenticateInteractive env w
                 = (Hang,
                    set_listener w (createServer (callbackHost_of parts) (callbackPort_of parts))
                                 (authUrl env creds (redirectUri_of creds))
                                 (now w + consent_delay env))).
  { rewrite (authenticateInteractive_unfold w creds parts Hcreds Hparse).
    apply bind_hang. unfold await_code. rewrite Hserve. reflexivity. }
  unfold Server.auth_main. rewrite Hrun. repeat split.
Qed.

End FlowMore.

Lemma callback_outcome_example :
  Auth.flow (Auth.handler "/callback"
               (Auth.Target "/callback" [("code", "c0de"); ("error", "access_denied")])
               Scenario.fresh_listener)
  = Auth.Rejected (Error "OAuth error: access_denied").
Proof.
  apply (proj1 (callback_outcome "/callback" [("code", "c0de"); ("error", "access_denied")]
                  Scenario.fresh_listener eq_refl) "access_denied").
  - reflexivity.
  - discriminate.
Defined.

Lemma serve_ignores_other_paths_example :
  Auth.serve "/callback" [Scenario.favicon; Scenario.favicon; Scenario.granted]
             Scenario.fresh_listener
  = Auth.serve "/callback" [Scenario.granted] Scenario.fresh_listener.
Proof.
  apply (serve_ignores_other_paths "/callback" [Scenario.favicon; Scenario.favicon]
           [Scenario.granted] Scenario.fresh_listener).
  repeat (apply Forall_cons;
          [exists "/favicon.ico", []; split; [reflexivity|discriminate]|]).
  apply Forall_nil.
Defined.

Lemma refused_exchange_example :
  fst (Auth.authenticateInteractive (Sample.refusing [Scenario.granted])
         (Scenario.world_at 1000 Auth.Absent))
  = Throw (Error "Token exchange failed: {invalid_grant}")
  /\ Auth.sent (snd (Auth.authenticateInteractive (Sample.refusing [Scenario.granted])
                       (Scenario.world_at 1000 Auth.Absent)))
     = [Auth.token_request "c0de" Scenario.credentials
          (Auth.redirectUri_of Scenario.credentials)]
  /\ option_map Auth.listening
       (Auth.listener (snd (Auth.authenticateInteractive (Sample.refusing [Scenario.granted])
                              (Scenario.world_at 1000 Auth.Absent))))
     = Some false
  /\ Auth.token_file (snd (Auth.authenticateInteractive (Sample.refusing [Scenario.granted])
                             (Scenario.world_at 1000 Auth.Absent)))
     = Auth.Absent.
Proof.
  apply (refused_exchange (Sample.refusing [Scenario.granted])
           (Scenario.world_at 1000 Auth.Absent) Scenario.credentials Scenario.loopback
           "c0de" (Scenario.reply 400 [] "{invalid_grant}" None));
    reflexivity.
Defined.

Lemma abandoned_authorization_hangs_example :
  fst (Auth.authenticateInteractive (Scenario.env_with [Scenario.favicon])
         (Scenario.world_at 1000 Auth.Absent)) = Hang
  /\ Auth.sent (snd (Auth.authenticateInteractive (Scenario.env_with [Scenario.favicon])
                       (Scenario.world_at 1000 Auth.Absent))) = []
  /\ option_map Auth.listening
       (Auth.listener (snd (Auth.authenticateInteractive (Scenario.env_with [Scenario.favicon])
                              (Scenario.world_at 1000 Auth.Absent))))
     = Some true
  /\ fst (Server.auth_main (Scenario.env_with [Scenario.favicon])
            (Scenario.world_at 1000 Auth.Absent)) = None.
Proof.
  apply (abandoned_authorization_hangs (Scenario.env_with [Scenario.favicon])
           (Scenario.world_at 1000 Auth.Absent) Scenario.credentials Scenario.loopback).
  - reflexivity.
  - reflexivity.
  - apply Forall_cons; [|apply Forall_nil].
    exists "/favicon.ico", []. split; [reflexivity|discriminate].
Defined.

(* ================================================================== *)
(** ** Properties of the encoders *)

Section EncodingFacts.

Import Trace.

Lemma occurrences_app (c : ascii) (a b : string) :
  occurrences c (a ++ b) = (occurrences c a + occurrences c b)%nat.
Proof.
  induction a as [|x a IH]; cbn; [reflexivity|]. rewrite IH. lia.
Qed.

Lemma all_chars_app (p : ascii -> bool) (a b : string) :
  all_chars p (a ++ b) = all_chars p a && all_chars p b.
Proof.
  induction a as [|x a IH]; cbn; [reflexivity|]. rewrite IH, andb_assoc. reflexivity.
Qed.

Lemma all_chars_occurrences (p : ascii -> bool) (c : ascii) (s : string) :
  all_chars p s = true -> p c = false -> occurrences c s = O.
Proof.
  intros Hall Hc. induction s as [|x s IH]; cbn in *; [reflexivity|].
  apply andb_true_iff in Hall. destruct Hall as [Hx Hs].
  destruct (Ascii.eqb_spec x c) as [->|_]; [congruence|]. rewrite (IH Hs). reflexivity.
Qed.

Ltac each_byte a :=
  destruct a as [b0 b1 b2 b3 b4 b5 b6 b7];
  destruct b0, b1, b2, b3, b4, b5, b6, b7; reflexivity.

Lemma form_piece_safe (a : ascii) :
  all_chars form_safe
    (if Ascii.eqb a " " then "+"
     else if JS.is_alnum a || JS.mem_ascii a "*-._"
          then String a EmptyString
          else JS.percent a) = true.
Proof. each_byte a. Qed.

Lemma component_piece_safe (a : ascii) :
  all_chars component_safe
    (if JS.is_alnum a || JS.mem_ascii a "-_.!~*'()"
     then String a EmptyString
     else JS.percent a) = true.
Proof. each_byte a. Qed.

Lemma form_encode_safe (s : string) : all_chars form_safe (JS.form_encode s) = true.
Proof.
  induction s as [|a s IH]; [reflexivity|].
  cbn [JS.form_encode]. rewrite all_chars_app, IH, form_piece_safe. reflexivity.
Qed.

Lemma encodeURIComponent_safe (s : string) :
  all_chars component_safe (JS.encodeURIComponent s) = true.
Proof.
  induction s as [|a s IH]; [reflexivity|].
  cbn [JS.encodeURIComponent]. rewrite all_chars_app, IH, component_piece_safe. reflexivity.
Qed.

Lemma form_encode_free (c : ascii) (s : string) :
  form_safe c = false -> occurrences c (JS.form_encode s) = O.
Proof. intros H. exact (all_chars_occurrences _ c _ (form_encode_safe s) H). Qed.

Lemma encodeURIComponent_free (c : ascii) (s : string) :
  component_safe c = false -> occurrences c (JS.encodeURIComponent s) = O.
Proof. intros H. exact (all_chars_occurrences _ c _ (encodeURIComponent_safe s) H). Qed.

Lemma five_pairs (k1 k2 k3 k4 k5 v1 v2 v3 v4 v5 : string) (c : ascii) :
  form_safe c = false ->
  occurrences c (JS.params_toString [(k1, v1); (k2, v2); (k3, v3); (k4, v4); (k5, v5)])
  = (4 * occurrences c "&" + 5 * occurrences c "=")%nat.
Proof.
  intros Hc. unfold JS.params_toString. cbn [map String.concat fst snd].
  rewrite !occurrences_app, !(form_encode_free c _ Hc). lia.
Qed.

(** X9: whatever the credentials, the code and the redirect URI contain,
    the query of the authorization URL and the body of the token request
    consist of exactly five [name=value] pairs: four [&], five [=], and no
    space, [#] or [?]; a value cannot add or split a parameter. *)
Theorem serialized_parameters_shape (env : Auth.Env) (creds : Auth.Credentials)
        (code redirectUri : string) :
  (occurrences "&" (JS.params_toString (Auth.authParams env creds redirectUri)) = 4%nat
   /\ occurrences "=" (JS.params_toString (Auth.authParams env creds redirectUri)) = 5%nat
   /\ forall c, In c [" "; "#"; "?"]%char ->
                occurrences c (JS.params_toString (Auth.authParams env creds redirectUri))
                = O)
  /\ exists body,
      Http.body (Auth.token_request code creds redirectUri) = Some (Http.TextBody body)
      /\ occurrences "&" body = 4%nat
      /\ occurrences "=" body = 5%nat
      /\ forall c, In c [" "; "#"; "?"]%char -> occurrences c body = O.
Proof.
  split; [|eexists; split; [reflexivity|]];
    (split; [|split]);
    try (unfold Auth.authParams; rewrite five_pairs by reflexivity; reflexivity);
    try (intros c [<-|[<-|[<-|[]]]];
         unfold Auth.authParams; rewrite five_pairs by reflexivity; reflexivity).
Qed.

End EncodingFacts.

(* ================================================================== *)
(** ** Further properties of the API client *)

Section ClientMore.

Import Client.

Variable net : Http.Request -> Http.Outcome Http.Data.

Lemma sent_after_requests (l : list Http.Request) :
  forall s, sent (Trace.after_requests s l) = (sent s ++ l)%list
            /\ this (Trace.after_requests s l) = this s.
Proof.
  unfold Trace.after_requests.
  induction l as [|req l IH]; intros s; cbn [fold_left].
  - rewrite app_nil_r. split; reflexivity.
  - destruct (IH (after_request s req)) as [Hs Ht]. rewrite Hs, Ht. cbn.
    rewrite <- app_assoc. split; reflexivity.
Qed.

Lemma identity_probe_cases (req : Http.Request) (field : Http.Data -> option string)
      (s : State) :
  (exists urn, identity_probe net req field s
               = (Ok (Some urn), remember (after_request s req) urn)
               /\ JS.truthy (Some urn) = true)
  \/ identity_probe net req field s = (Ok None, after_request s req).
Proof.
  unfold identity_probe, attempt, try_catch, bind, fetch, json_of.
  destruct (net req) as [|r]; cbn; [right; reflexivity|].
  destruct (Http.ok r); cbn; [|right; reflexivity].
  destruct (Http.json r) as [d|]; cbn; [|right; reflexivity].
  destruct (JS.truthy (field d)); cbn; [|right; reflexivity].
  left. eexists. split; reflexivity.
Qed.

Lemma getMemberUrn_cases (s : State) :
  (JS.truthy (memberUrn (this s)) = true
   /\ getMemberUrn net s = (Ok (JS.string_of_nullable (memberUrn (this s))), s))
  \/ (JS.truthy (memberUrn (this s)) = false
      /\ exists n urn,
          (1 <= n <= 3)%nat
          /\ JS.truthy (Some urn) = true
          /\ getMemberUrn net s
             = (Ok urn,
                remember (Trace.after_requests s
                            (firstn n (Trace.identity_requests (accessToken (this s))))) urn))
  \/ (JS.truthy (memberUrn (this s)) = false
      /\ getMemberUrn net s
         = (Throw (Error unable_to_determine),
            Trace.after_requests s (Trace.identity_requests (accessToken (this s))))).
Proof.
  destruct (JS.truthy (memberUrn (this s))) eqn:Hcache.
  { left. split; [reflexivity|]. apply getMemberUrn_cached. exact Hcache. }
  right.
  unfold getMemberUrn, token_of, bind, gets. rewrite Hcache. cbv beta iota.
  destruct (identity_probe_cases (rest_me_request (accessToken (this s))) Http.sub s)
    as [(urn & E & Ht)|E]; rewrite E; cbv beta iota.
  { left. split; [reflexivity|]. exists 1%nat, urn. repeat split; auto. }
  destruct (identity_probe_cases (userinfo_request (accessToken (this s))) Http.sub
              (after_request s (rest_me_request (accessToken (this s)))))
    as [(urn & E2 & Ht)|E2]; rewrite E2; cbv beta iota.
  { left. split; [reflexivity|]. exists 2%nat, urn. repeat split; auto. }
  destruct (identity_probe_cases (v2_me_request (accessToken (this s))) Http.id
              (after_request (after_request s (rest_me_request (accessToken (this s))))
                             (userinfo_request (accessToken (this s)))))
    as [(urn & E3 & Ht)|E3]; rewrite E3; cbv beta iota.
  { left. split; [reflexivity|]. exists 3%nat, urn. repeat split; auto. }
  right. split; reflexivity.
Qed.


Ltac settle_trace k :=
  exists k; unfold ret, throw;
  cbn [fst snd sent this after_request map firstn request candidates List.app];
  rewrite <- ?app_assoc; cbn [List.app];
  repeat split; discriminate.

Ltac ask :=
  match goal with
  | |- context [fetch net ?req ?s] =>
      let r := fresh "r" in
      let E := fresh "E" in
      destruct (net req) as [|r] eqn:E;
      [rewrite (fetch_unreachable net req s E)
      |rewrite (fetch_responded net req r s E)];
      cbv beta iota
  end.

Ltac probe f :=
  match goal with
  | |- context [profile_probe net ?req ?m ?s] =>
      let o := fresh "o" in
      let E := fresh "E" in
      destruct (f req m s) as (o & E); rewrite E; cbv beta iota; destruct o
  end.

Lemma profile_probe_total (req : Http.Request) (f : Http.Data -> Profile) (s : State) :
  exists o, profile_probe net req f s = (Ok o, after_request s req).
Proof.
  unfold profile_probe, attempt, try_catch, bind, fetch, json_of.
  destruct (net req) as [|r]; cbn; [eexists; reflexivity|].
  destruct (Http.ok r); cbn; [|eexists; reflexivity].
  destruct (Http.json r) as [d|]; cbn; eexists; reflexivity.
Qed.

(** What an operation sends once it is on its chain. *)
Lemma chain_trace (op : Operation) (s s1 : State) (urn : string) :
  op <> GetMemberUrn ->
  prepared net op s urn s1 ->
  exists m,
    sent (snd (perform net op s))
    = (sent s1 ++ firstn m (map request (candidates (accessToken (this s1)) urn op)))%list
    /\ this (snd (perform net op s)) = this s1
    /\ fst (perform net op s) <> Hang.
Proof.
  intros Hop Hprep.
  destruct op; try contradiction; cbn [prepared needs_identity] in Hprep.
  - subst s1. unfold perform, lift, getProfile, token_of, bind, gets. cbv beta iota.
    probe profile_probe_total; [settle_trace 1%nat|].
    probe profile_probe_total; [settle_trace 2%nat|].
    ask; [settle_trace 3%nat|].
    destruct (Http.ok r); [|settle_trace 3%nat].
    unfold json_of. destruct (Http.json r); settle_trace 3%nat.
  - unfold perform, lift, createPost, token_of, bind, gets. rewrite Hprep. cbv beta iota.
    ask; [settle_trace 1%nat|].
    destruct (Http.ok r || (Http.status r =? 201)); [settle_trace 1%nat|].
    ask; [settle_trace 2%nat|].
    destruct (Http.ok r0 || (Http.status r0 =? 201)); [|settle_trace 2%nat].
    unfold json_of. destruct (Http.json r0); settle_trace 2%nat.
  - unfold perform, lift, createArticlePost, token_of, bind, gets. rewrite Hprep.
    cbv beta iota.
    ask; [settle_trace 1%nat|].
    destruct (Http.ok r || (Http.status r =? 201)); [settle_trace 1%nat|].
    ask; [settle_trace 2%nat|].
    destruct (Http.ok r0 || (Http.status r0 =? 201)); [|settle_trace 2%nat].
    unfold json_of. destruct (Http.json r0); settle_trace 2%nat.
  - unfold perform, lift, getPosts, token_of, bind, gets. rewrite Hprep. cbv beta iota.
    ask; [settle_trace 1%nat|].
    destruct (Http.ok r); [|settle_trace 1%nat].
    unfold json_of. destruct (Http.json r); settle_trace 1%nat.
  - subst s1. unfold perform, lift, deletePost, token_of, bind, gets. cbv beta iota.
    ask; [settle_trace 1%nat|].
    destruct (Http.ok r || (Http.status r =? 204)); [settle_trace 1%nat|].
    ask; [settle_trace 2%nat|].
    destruct (Http.ok r0 || (Http.status r0 =? 204)); settle_trace 2%nat.
  - subst s1. unfold perform, lift, getConnectionsCount, token_of, bind, gets.
    cbv beta iota.
    ask; [settle_trace 1%nat|].
    destruct (Http.ok r); [|settle_trace 1%nat].
    unfold json_of. destruct (Http.json r); settle_trace 1%nat.
Qed.


Lemma Forall_firstn_of {A} (P : A -> Prop) (l : list A) :
  Forall P l -> forall n, Forall P (firstn n l).
Proof.
  induction 1 as [|x l Hx _ IH]; intros [|n]; cbn; try constructor; auto.
Qed.

Lemma identity_op_stopped (op : Operation) (s s1 : State) (e : exn) :
  needs_identity op = true ->
  getMemberUrn net s = (Throw e, s1) ->
  perform net op s = (Throw e, s1).
Proof.
  intros Hop Hid.
  destruct op; try discriminate Hop;
    unfold perform, lift, createPost, createArticlePost, getPosts;
    rewrite (bind_throw _ _ _ _ _ (bind_throw _ _ _ _ _ Hid)); reflexivity.
Qed.

Lemma perform_trace (op : Operation) (s : State) :
  exists n m urn,
    sent (snd (perform net op s))
    = (sent s
       ++ (if needs_identity op
           then firstn n (Trace.identity_requests (accessToken (this s)))
           else [])
       ++ firstn m (map request (candidates (accessToken (this s)) urn op)))%list
    /\ accessToken (this (snd (perform net op s))) = accessToken (this s)
    /\ fst (perform net op s) <> Hang.
Proof.
  destruct (needs_identity op) eqn:Hneeds.
  - assert (Hop : op <> GetMemberUrn) by (intros ->; discriminate).
    assert (Hprep : forall urn s1, getMemberUrn net s = (Ok urn, s1) ->
                                   prepared net op s urn s1).
    { intros urn s1 H. destruct op; try discriminate Hneeds; exact H. }
    destruct (getMemberUrn_cases s)
      as [(Hc & E) | [(Hc & n & urn & Hn & Ht & E) | (Hc & E)]].
    + destruct (chain_trace op s s _ Hop (Hprep _ _ E)) as (m & Hs & Hthis & Hh).
      exists 0%nat, m, (JS.string_of_nullable (memberUrn (this s))).
      rewrite Hs, Hthis. repeat split; assumption.
    + destruct (chain_trace op s _ urn Hop (Hprep _ _ E)) as (m & Hs & Hthis & Hh).
      destruct (sent_after_requests
                  (firstn n (Trace.identity_requests (accessToken (this s)))) s)
        as [Hsent Hsame].
      exists n, m, urn. rewrite Hs, Hthis.
      cbn [remember sent this accessToken]. rewrite Hsent, Hsame, <- app_assoc.
      repeat split; assumption.
    + destruct (sent_after_requests (Trace.identity_requests (accessToken (this s))) s)
        as [Hsent Hsame].
      exists 3%nat, 0%nat, EmptyString.
      rewrite (identity_op_stopped op s _ _ Hneeds E). cbn [fst snd firstn].
      rewrite Hsent, Hsame, app_nil_r. repeat split. discriminate.
  - destruct op; try discriminate Hneeds.
    + (* identity resolution *)
      unfold perform, lift.
      destruct (getMemberUrn_cases s)
        as [(Hc & E) | [(Hc & n & urn & Hn & Ht & E) | (Hc & E)]].
      * exists 0%nat, 0%nat, EmptyString. rewrite (bind_ok _ _ _ _ _ E).
        cbn. rewrite app_nil_r. repeat split. discriminate.
      * destruct (sent_after_requests
                    (firstn n (Trace.identity_requests (accessToken (this s)))) s)
          as [Hsent Hsame].
        exists 0%nat, n, EmptyString. rewrite (bind_ok _ _ _ _ _ E).
        unfold ret. cbn [fst snd remember sent this accessToken List.app].
        rewrite Hsent, Hsame. repeat split. discriminate.
      * destruct (sent_after_requests (Trace.identity_requests (accessToken (this s))) s)
          as [Hsent Hsame].
        exists 0%nat, 3%nat, EmptyString. rewrite (bind_throw _ _ _ _ _ E).
        cbn [fst snd List.app]. rewrite Hsent, Hsame. repeat split. discriminate.
    + destruct (chain_trace GetProfile s s EmptyString) as (m & Hs & Hthis & Hh);
        [discriminate|reflexivity|].
      exists 0%nat, m, EmptyString. rewrite Hs, Hthis. repeat split; assumption.
    + destruct (chain_trace (DeletePost postId) s s EmptyString) as (m & Hs & Hthis & Hh);
        [discriminate|reflexivity|].
      exists 0%nat, m, EmptyString. rewrite Hs, Hthis. repeat split; assumption.
    + destruct (chain_trace GetConnectionsCount s s EmptyString) as (m & Hs & Hthis & Hh);
        [discriminate|reflexivity|].
      exists 0%nat, m, EmptyString. rewrite Hs, Hthis. repeat split; assumption.
Qed.

Lemma candidates_authorized (token urn : string) (op : Operation) :
  Forall (Trace.authorized token) (map request (candidates token urn op)).
Proof.
  destruct op; cbn [candidates map request];
    repeat (apply Forall_cons; [left; reflexivity|]); apply Forall_nil.
Qed.


(** X12: every request that an operation sends presents the client's
    access token in its [Authorization] header, and the operation leaves
    the token of the client as it was. *)
Theorem requests_carry_the_token (op : Operation) (s : State) :
  exists extra,
    sent (snd (perform net op s)) = (sent s ++ extra)%list
    /\ Forall (Trace.authorized (accessToken (this s))) extra
    /\ accessToken (this (snd (perform net op s))) = accessToken (this s).
Proof.
  destruct (perform_trace op s) as (n & m & urn & H & Htok & _).
  eexists. split; [exact H|]. split; [|exact Htok].
  apply Forall_app. split.
  - destruct (needs_identity op); [|apply Forall_nil].
    apply Forall_firstn_of.
    exact (candidates_authorized (accessToken (this s)) EmptyString GetMemberUrn).
  - apply Forall_firstn_of. apply candidates_authorized.
Qed.

(** X13: once [getMemberUrn] has returned a URN, the URN is not empty, it
    is cached in the client, and every later call returns it without
    sending a request, whatever the servers would answer by then. *)
Theorem member_urn_is_cached (s s1 : State) (urn : string) :
  getMemberUrn net s = (Ok urn, s1) ->
  memberUrn (this s1) = Some urn
  /\ urn <> EmptyString
  /\ accessToken (this s1) = accessToken (this s)
  /\ forall net', getMemberUrn net' s1 = (Ok urn, s1).
Proof.
  intros Hrun.
  assert (Hnonempty : forall u, JS.truthy (Some u) = true -> u <> EmptyString)
    by (intros u H ->; discriminate).
  destruct (getMemberUrn_cases s)
    as [(Hc & E) | [(Hc & n & urn' & Hn & Ht & E) | (Hc & E)]];
    rewrite E in Hrun; try discriminate.
  - injection Hrun as <- <-.
    destruct (memberUrn (this s)) as [u|] eqn:Hm; [|discriminate].
    cbn [JS.string_of_nullable]. repeat split; auto.
    intros net'. rewrite (getMemberUrn_cached net' s) by (rewrite Hm; exact Hc).
    rewrite Hm. reflexivity.
  - injection Hrun as <- <-.
    destruct (sent_after_requests
                (firstn n (Trace.identity_requests (accessToken (this s)))) s)
      as [_ Hsame].
    cbn [remember this memberUrn accessToken]. rewrite Hsame. repeat split; auto.
    intros net'. apply (getMemberUrn_cached net'). exact Ht.
Qed.

(** X14: transport errors and unreadable bodies never escape identity
    resolution: [getMemberUrn] either returns a URN or raises its own
    error, and in the second case it has asked all three endpoints, in
    order, and left the client as it was. *)
Theorem identity_resolution_outcomes (s : State) :
  (exists urn, fst (getMemberUrn net s) = Ok urn)
  \/ (fst (getMemberUrn net s) = Throw (Error unable_to_determine)
      /\ sent (snd (getMemberUrn net s))
         = (sent s ++ Trace.identity_requests (accessToken (this s)))%list
      /\ this (snd (getMemberUrn net s)) = this s).
Proof.
  destruct (getMemberUrn_cases s)
    as [(Hc & E) | [(Hc & n & urn & Hn & Ht & E) | (Hc & E)]]; rewrite E.
  - left. eexists; reflexivity.
  - left. eexists; reflexivity.
  - right. cbn [fst snd].
    destruct (sent_after_requests (Trace.identity_requests (accessToken (this s))) s)
      as [Hsent Hsame].
    repeat split; assumption.
Qed.

(** X15: when the member URN cannot be resolved, creating a post, creating
    an article post and listing posts raise the identity error and have
    sent nothing but the three identity requests: no post is attempted
    without its author. *)
Theorem unresolved_identity_stops_operation (op : Operation) (s : State) :
  needs_identity op = true ->
  JS.truthy (memberUrn (this s)) = false ->
  (forall c, In c (candidates (accessToken (this s)) EmptyString GetMemberUrn) ->
             falls_through net c) ->
  fst (perform net op s) = Throw (Error unable_to_determine)
  /\ sent (snd (perform net op s))
     = (sent s ++ Trace.identity_requests (accessToken (this s)))%list.
Proof.
  intros Hop Hcache Hall. cbn [candidates] in Hall.
  pose proof (Hall _ (or_introl eq_refl)) as F0.
  pose proof (Hall _ (or_intror (or_introl eq_refl))) as F1.
  pose proof (Hall _ (or_intror (or_intror (or_introl eq_refl)))) as F2.
  assert (E : getMemberUrn net s
              = (Throw (Error unable_to_determine),
                 Trace.after_requests s (Trace.identity_requests (accessToken (this s))))).
  { unfold getMemberUrn, token_of, bind, gets. rewrite Hcache. cbv beta iota.
    rewrite (identity_probe_miss net _ _ _ F0). cbv beta iota.
    rewrite (identity_probe_miss net _ _ _ F1). cbv beta iota.
    rewrite (identity_probe_miss net _ _ _ F2). reflexivity. }
  rewrite (identity_op_stopped op s _ _ Hop E). cbn [fst snd].
  destruct (sent_after_requests (Trace.identity_requests (accessToken (this s))) s)
    as [Hsent _].
  split; [reflexivity|exact Hsent].
Qed.

(** X16: when both delete endpoints answer, [deletePost] returns and does
    not raise; it reports success exactly when one of the answers is in
    the success range, it asks the legacy endpoint only after the current
    one has refused, and its failure message names the legacy status. *)
Theorem deletePost_outcome (postId : string) (s : State)
        (r1 r2 : Http.Response Http.Data) :
  net (rest_delete_request (accessToken (this s)) postId) = Http.Responded r1 ->
  net (ugc_delete_request (accessToken (this s)) postId) = Http.Responded r2 ->
  fst (deletePost net postId s)
  = Ok {| deleted := Http.ok r1 || Http.ok r2;
          delete_message :=
            if Http.ok r1 || Http.ok r2 then None
            else Some ("Failed to delete post: " ++ JS.string_of_number (Http.status r2)) |}
  /\ sent (snd (deletePost net postId s))
     = (sent s ++ (if Http.ok r1
                   then [rest_delete_request (accessToken (this s)) postId]
                   else [rest_delete_request (accessToken (this s)) postId;
                         ugc_delete_request (accessToken (this s)) postId]))%list
  /\ this (snd (deletePost net postId s)) = this s.
Proof.
  intros H1 H2.
  unfold deletePost, token_of, bind, gets. cbv beta iota.
  rewrite (fetch_responded net _ _ _ H1). cbv beta iota.
  rewrite (ok_or_status r1 204) by lia.
  destruct (Http.ok r1); [repeat split|].
  cbn [after_request this accessToken].
  rewrite (fetch_responded net _ _ _ H2). cbv beta iota.
  rewrite (ok_or_status r2 204) by lia.
  destruct (Http.ok r2); cbn; rewrite <- app_assoc; repeat split.
Qed.


Lemma chain_urls_distinct (token urn : string) (op : Operation) (n m : nat) :
  NoDup (map Http.url
           ((if needs_identity op then firstn n (Trace.identity_requests token) else [])
            ++ firstn m (map request (candidates token urn op)))%list).
Proof.
  unfold Trace.identity_requests.
  destruct op; cbn [needs_identity candidates map request];
    destruct n as [|[|[|n]]]; destruct m as [|[|[|m]]];
    cbn [firstn List.app map]; rewrite ?firstn_nil; cbn [firstn List.app map];
    repeat (apply NoDup_cons; [cbn; intuition discriminate|]); apply NoDup_nil.
Qed.

(** X11: whatever the servers answer, an operation sends its requests in
    the order of its fallback chain and asks no endpoint twice: the
    requests of a call are an initial part of the identity chain (for the
    operations that need the member URN) followed by an initial part of the
    operation's own chain, and their URLs are pairwise distinct. *)
Theorem requests_follow_the_chain (op : Operation) (s : State) :
  exists n m urn,
    sent (snd (perform net op s))
    = (sent s
       ++ (if needs_identity op
           then firstn n (Trace.identity_requests (accessToken (this s)))
           else [])
       ++ firstn m (map request (candidates (accessToken (this s)) urn op)))%list
    /\ NoDup (map Http.url
                ((if needs_identity op
                  then firstn n (Trace.identity_requests (accessToken (this s)))
                  else [])
                 ++ firstn m (map request (candidates (accessToken (this s)) urn op)))%list).
Proof.
  destruct (perform_trace op s) as (n & m & urn & H & _). exists n, m, urn.
  split; [exact H|apply chain_urls_distinct].
Qed.

Lemma lift_not_hang {A} (inj : A -> Value) (m : M State A) (s : State) :
  fst (lift inj m s) <> Hang -> fst (m s) <> Hang.
Proof.
  unfold lift, bind. destruct (m s) as [[a|e|] s']; cbn; intros H; congruence.
Qed.

Lemma methods_return :
  (forall s, fst (getProfile net s) <> Hang)
  /\ (forall text visibility s, fst (createPost net text visibility s) <> Hang)
  /\ (forall text articleUrl title description visibility s,
         fst (createArticlePost net text articleUrl title description visibility s) <> Hang)
  /\ (forall n s, fst (getPosts net n s) <> Hang)
  /\ (forall postId s, fst (deletePost net postId s) <> Hang)
  /\ (forall s, fst (getConnectionsCount net s) <> Hang).
Proof.
  repeat split; intros.
  - destruct (perform_trace GetProfile s) as (? & ? & ? & _ & _ & H).
    exact (lift_not_hang _ _ _ H).
  - destruct (perform_trace (CreatePost text visibility) s) as (? & ? & ? & _ & _ & H).
    exact (lift_not_hang _ _ _ H).
  - destruct (perform_trace (CreateArticlePost text articleUrl title description visibility) s)
      as (? & ? & ? & _ & _ & H).
    exact (lift_not_hang _ _ _ H).
  - destruct (perform_trace (GetPosts n) s) as (? & ? & ? & _ & _ & H).
    exact (lift_not_hang _ _ _ H).
  - destruct (perform_trace (DeletePost postId) s) as (? & ? & ? & _ & _ & H).
    exact (lift_not_hang _ _ _ H).
  - destruct (perform_trace GetConnectionsCount s) as (? & ? & ? & _ & _ & H).
    exact (lift_not_hang _ _ _ H).
Qed.

End ClientMore.

(* ================================================================== *)
(** ** Properties of the tool dispatcher *)

Section ServerFacts.

Import Server.

Variable net : Http.Request -> Http.Outcome Http.Data.
Variable store : Auth.World.
Variable env : Auth.Env.
Variable runtime_message : exn -> string.

Lemma ensureClient_cases (st : State) :
  (exists client st', ensureClient store env st = (Ok client, st')
                      /\ linkedinClient st' = Some client /\ sent st' = sent st)
  \/ (ensureClient store env st = (Throw (Error (not_authenticated env)), st)
      /\ linkedinClient st = None).
Proof.
  unfold ensureClient. destruct (linkedinClient st) as [c|] eqn:Hc.
  - left. exists c, st. repeat split; assumption.
  - destruct (negb (JS.truthy (Auth.getAccessToken store))).
    + right. split; reflexivity.
    + left. eexists. eexists. repeat split.
Qed.

(** A step of a handler: the awaited call, then the result built from it. *)
Lemma handled {A} (client : Client.LinkedInClient) (m : M Client.State A)
      (k : A -> ToolResult) (st : State) :
  (forall s, fst (m s) <> Hang) ->
  exists result,
    fst (try_catch (bind (on_client client m) (fun a => ret (k a)))
                   (fun error => ret (failure runtime_message error)) st) = Ok result
    /\ (isError result = true -> (forall a, isError (k a) = false) ->
        exists e, result = failure runtime_message e).
Proof.
  intros Hm. unfold try_catch, bind, on_client.
  specialize (Hm {| Client.this := client; Client.sent := sent st |}).
  destruct (m _) as [[a|e|] after]; cbn in *.
  - eexists. split; [reflexivity|]. intros H Hk. rewrite Hk in H. discriminate.
  - eexists. split; [reflexivity|]. intros _ _. eexists; reflexivity.
  - contradiction.
Qed.


Lemma try_catch_bind_ok {S A B} (m : M S A) (k : A -> M S B) (h : exn -> M S B)
      (s s' : S) (a : A) :
  m s = (Ok a, s') -> try_catch (bind m k) h s = try_catch (k a) h s'.
Proof. intros H. unfold try_catch, bind. rewrite H. reflexivity. Qed.

Lemma try_catch_bind_throw {S A B} (m : M S A) (k : A -> M S B) (h : exn -> M S B)
      (s s' : S) (e : exn) :
  m s = (Throw e, s') -> try_catch (bind m k) h s = h e s'.
Proof. intros H. unfold try_catch, bind. rewrite H. reflexivity. Qed.

Ltac refused :=
  eexists; split; [reflexivity|]; intros _; eexists; reflexivity.

Lemma destructured {B} (args : Args) (k : Args -> M State B) (h : exn -> M State B)
      (st : State) :
  try_catch (bind (destructure (Some args)) k) h st = try_catch (k args) h st.
Proof. reflexivity. Qed.

(** X17: the dispatcher never raises: every call returns a result, and a
    result flagged [isError] is the text [Error: <message>] of the error
    that was caught. *)
Theorem callTool_always_answers (name : string) (arguments : option Args) (st : State) :
  exists result,
    fst (callTool net store env runtime_message name arguments st) = Ok result
    /\ (isError result = true -> exists e, result = failure runtime_message e).
Proof.
  destruct (methods_return net) as (Hprofile & Hpost & Harticle & Hposts & Hdelete & Hcount).
  unfold callTool.
  destruct (ensureClient_cases st) as [(client & st' & E & _ & _) | (E & _)].
  2:{ rewrite (try_catch_bind_throw _ _ _ _ _ _ E). refused. }
  rewrite (try_catch_bind_ok _ _ _ _ _ _ E).
  destruct (String.eqb name "linkedin_get_profile").
  { destruct (handled client (Client.getProfile net)
                (fun profile =>
                   {| content := ProfileJson (spread profile (Auth.getUserInfo store));
                      isError := false |}) st' Hprofile) as (result & Hr & He).
    exists result. split; [exact Hr|]. intros H. apply He; [exact H|reflexivity]. }
  destruct (String.eqb name "linkedin_create_post").
  { destruct arguments as [args|]; [rewrite destructured|refused].
    destruct (blank_text (text args)); [refused|].
    destruct (utf16_length (string_of_optional (text args)) >? 3000); [refused|].
    destruct (handled client
                (Client.createPost net (string_of_optional (text args))
                                   (visibility_or_public (visibility args)))
                (fun result =>
                   plain ("Post created successfully!" ++ JS.newline
                          ++ "Post ID: " ++ string_of_optional (Client.id result)
                          ++ JS.newline ++ "Visibility: "
                          ++ Client.visibility_string
                               (visibility_or_public (visibility args))))
                st' (Hpost _ _)) as (result & Hr & He).
    exists result. split; [exact Hr|]. intros H. apply He; [exact H|reflexivity]. }
  destruct (String.eqb name "linkedin_create_article_post").
  { destruct arguments as [args|]; [rewrite destructured|refused].
    destruct (blank_text (text args)); [refused|].
    destruct (invalid_url (articleUrl args)); [refused|].
    destruct (handled client
                (Client.createArticlePost net (string_of_optional (text args))
                                          (string_of_optional (articleUrl args))
                                          (title args) (description args)
                                          (visibility_or_public (visibility args)))
                (fun result =>
                   plain ("Article post created successfully!" ++ JS.newline
                          ++ "Post ID: " ++ string_of_optional (Client.id result)
                          ++ JS.newline
                          ++ "Article: " ++ string_of_optional (articleUrl args)
                          ++ JS.newline ++ "Visibility: "
                          ++ Client.visibility_string
                               (visibility_or_public (visibility args))))
                st' (Harticle _ _ _ _ _)) as (result & Hr & He).
    exists result. split; [exact Hr|]. intros H. apply He; [exact H|reflexivity]. }
  destruct (String.eqb name "linkedin_get_posts").
  { destruct arguments as [args|]; [rewrite destructured|refused].
    destruct (handled client (Client.getPosts net (posts_count (count args)))
                (fun result => {| content := PostsJson result; isError := false |})
                st' (Hposts _)) as (result & Hr & He).
    exists result. split; [exact Hr|]. intros H. apply He; [exact H|reflexivity]. }
  destruct (String.eqb name "linkedin_delete_post").
  { destruct arguments as [args|]; [rewrite destructured|refused].
    destruct (handled client (Client.deletePost net (string_of_optional (postId args)))
                (fun result =>
                   plain (if Client.deleted result
                          then "Post deleted successfully."
                          else "Failed to delete post: "
                               ++ string_of_optional (Client.delete_message result)))
                st' (Hdelete _)) as (result & Hr & He).
    exists result. split; [exact Hr|]. intros H. apply He; [exact H|reflexivity]. }
  destruct (String.eqb name "linkedin_get_connections_count").
  { destruct (handled client (Client.getConnectionsCount net)
                (fun result => {| content := ConnectionsJson result; isError := false |})
                st' Hcount) as (result & Hr & He).
    exists result. split; [exact Hr|]. intros H. apply He; [exact H|reflexivity]. }
  refused.
Qed.

Lemma no_token_when_not_authenticated :
  Auth.isAuthenticated store = false -> Auth.getAccessToken store = None.
Proof.
  unfold Auth.isAuthenticated, Auth.getAccessToken.
  destruct (Auth.loadToken store) as [t|]; [|reflexivity].
  destruct (JS.truthy_num (Auth.expires_at t) && (Auth.now store >=? Auth.expires_at t));
    [reflexivity|discriminate].
Qed.

(** X18: while no client exists and the stored token is missing or
    expired, every call, whatever the tool and its arguments, is answered
    with the [Not authenticated] error, sends no request and creates no
    client. *)
Theorem unauthenticated_call_is_refused (name : string) (arguments : option Args)
        (st : State) :
  linkedinClient st = None ->
  Auth.isAuthenticated store = false ->
  callTool net store env runtime_message name arguments st
  = (Ok (failure runtime_message (Error (not_authenticated env))), st).
Proof.
  intros Hnone Hauth.
  assert (E : ensureClient store env st = (Throw (Error (not_authenticated env)), st)).
  { unfold ensureClient. rewrite Hnone, (no_token_when_not_authenticated Hauth).
    reflexivity. }
  unfold callTool. rewrite (try_catch_bind_throw _ _ _ _ _ _ E). reflexivity.
Qed.

(** X19: input validation comes before any network activity: a post whose
    text is missing, empty or blank, or longer than 3000 UTF-16 code units,
    an article post whose text is blank or whose URL is missing or does not
    start with [http], a tool name that is not listed, and a call without
    an arguments object to a tool that destructures it are answered with
    an error, and no request is sent. *)
Theorem invalid_input_sends_nothing (name : string) (arguments : option Args)
        (args : Args) (st : State) :
  (name = "linkedin_create_post"
   /\ arguments = Some args
   /\ (blank_text (text args) = true
       \/ utf16_length (string_of_optional (text args)) > 3000))
  \/ (name = "linkedin_create_article_post"
      /\ arguments = Some args
      /\ (blank_text (text args) = true \/ invalid_url (articleUrl args) = true))
  \/ ~ In name tool_names
  \/ (arguments = None /\ In name destructuring_tools) ->
  exists result,
    fst (callTool net store env runtime_message name arguments st) = Ok result
    /\ isError result = true
    /\ sent (snd (callTool net store env runtime_message name arguments st)) = sent st.
Proof.
  intros Hbad. unfold callTool.
  destruct (ensureClient_cases st) as [(client & st' & E & _ & Hsent) | (E & _)].
  2:{ rewrite (try_catch_bind_throw _ _ _ _ _ _ E). eexists. repeat split. }
  rewrite (try_catch_bind_ok _ _ _ _ _ _ E).
  destruct Hbad as [(-> & -> & Hbad) | [(-> & -> & Hbad) | [Hbad | (-> & Hbad)]]].
  - cbn [String.eqb Ascii.eqb Bool.eqb]. rewrite destructured.
    destruct (blank_text (text args)) eqn:Hblank.
    { eexists. repeat split. exact Hsent. }
    destruct Hbad as [Hbad|Hbad]; [discriminate|].
    assert (Hlong : (utf16_length (string_of_optional (text args)) >? 3000) = true)
      by (apply Z.gtb_lt; lia).
    rewrite Hlong. eexists. repeat split. exact Hsent.
  - cbn [String.eqb Ascii.eqb Bool.eqb]. rewrite destructured.
    destruct (blank_text (text args)) eqn:Hblank.
    { eexists. repeat split. exact Hsent. }
    destruct Hbad as [Hbad|Hbad]; [discriminate|].
    rewrite Hbad. eexists. repeat split. exact Hsent.
  - assert (Hne : forall known, In known tool_names -> String.eqb name known = false).
    { intros known Hin. apply String.eqb_neq. intros ->. contradiction. }
    rewrite !Hne by (cbn; tauto).
    eexists. repeat split. exact Hsent.
  - destruct Hbad as [<- | [<- | [<- | [<- | []]]]];
      cbn [String.eqb Ascii.eqb Bool.eqb];
      eexists; repeat split; exact Hsent.
Qed.

(** X20: for an arguments object that is present and an integer count
    above [-2^53], the count of [linkedin_get_posts] is 10 when it is left
    out or zero and never exceeds 50; up to 50 a given count, also a
    negative one, is passed on as it is.  With the member URN cached, the
    call sends the one query that carries this count.  Without an
    arguments object the call sends nothing. *)
Theorem posts_count_is_capped (args : Args) (st : State) (client : Client.LinkedInClient)
        (urn : string) :
  linkedinClient st = Some client ->
  Client.memberUrn client = Some urn ->
  urn <> EmptyString ->
  (forall n, count args = Some n -> - 2 ^ 53 < n) ->
  (posts_count (count args) <= 50
   /\ - 2 ^ 53 < posts_count (count args)
   /\ (count args = None \/ count args = Some 0 -> posts_count (count args) = 10)
   /\ (forall n, count args = Some n -> n <> 0 -> n <= 50 -> posts_count (count args) = n)
   /\ sent (snd (callTool net store env runtime_message "linkedin_get_posts" (Some args) st))
      = (sent st ++ [Client.ugc_query_request (Client.accessToken client) urn
                       (posts_count (count args))])%list)
  /\ sent (snd (callTool net store env runtime_message "linkedin_get_posts" None st))
     = sent st.
Proof.
  intros Hclient Hurn Hne Hsafe.
  assert (E : ensureClient store env st = (Ok client, st))
    by (unfold ensureClient; rewrite Hclient; reflexivity).
  split.
  2:{ unfold callTool. rewrite (try_catch_bind_ok _ _ _ _ _ _ E). reflexivity. }
  split; [unfold posts_count; lia|].
  split.
  { unfold posts_count. destruct (count args) as [n|]; [|cbn; lia].
    specialize (Hsafe n eq_refl). destruct (JS.truthy_num n); lia. }
  split; [intros [->| ->]; reflexivity|].
  split.
  { intros n -> Hn Hle. unfold posts_count, JS.truthy_num.
    destruct (Z.eqb_spec n 0); [contradiction|]. cbn. lia. }
  assert (Hcached : JS.truthy (Client.memberUrn client) = true)
    by (rewrite Hurn; destruct urn; [contradiction|reflexivity]).
  unfold callTool. rewrite (try_catch_bind_ok _ _ _ _ _ _ E).
  cbn [String.eqb Ascii.eqb Bool.eqb]. rewrite destructured.
  unfold try_catch, bind, on_client, Client.getPosts, bind.
  rewrite (getMemberUrn_cached net {| Client.this := client; Client.sent := sent st |} Hcached).
  cbn [Client.this]. rewrite Hurn. cbn [JS.string_of_nullable].
  unfold Client.token_of, gets, Client.fetch.
  cbn [Client.this Client.accessToken].
  destruct (net _) as [|r]; cbn; [reflexivity|].
  destruct (Http.ok r); cbn; [|reflexivity].
  unfold Client.json_of. destruct (Http.json r); reflexivity.
Qed.

Lemma ensureClient_existing (w : Auth.World) (st : State) (client : Client.LinkedInClient) :
  linkedinClient st = Some client -> ensureClient w env st = (Ok client, st).
Proof. intros H. unfold ensureClient. rewrite H. reflexivity. Qed.

(** X21: in the answer of [linkedin_get_profile] the [sub], [name] and
    [email] are those of the stored token record, also when the record
    lacks them and the fetched profile has them; the other properties are
    those of the fetched profile.  Only when no token record can be read
    is the fetched profile answered as it is. *)
Theorem profile_prefers_stored_identity (arguments : option Args) (st : State)
        (client : Client.LinkedInClient) (p : Client.Profile) (after : Client.State) :
  linkedinClient st = Some client ->
  Client.getProfile net {| Client.this := client; Client.sent := sent st |} = (Ok p, after) ->
  (forall t, Auth.loadToken store = Some t ->
             fst (callTool net store env runtime_message "linkedin_get_profile" arguments st)
             = Ok {| content :=
                       ProfileJson
                         {| Client.sub := Auth.sub t;
                            Client.name := Auth.name t;
                            Client.given_name := Client.given_name p;
                            Client.family_name := Client.family_name p;
                            Client.picture := Client.picture p;
                            Client.email := Auth.email t;
                            Client.email_verified := Client.email_verified p |};
                     isError := false |})
  /\ (Auth.loadToken store = None ->
      fst (callTool net store env runtime_message "linkedin_get_profile" arguments st)
      = Ok {| content := ProfileJson p; isError := false |}).
Proof.
  intros Hclient Hrun.
  assert (Hcall : fst (callTool net store env runtime_message "linkedin_get_profile"
                         arguments st)
                  = Ok {| content := ProfileJson (spread p (Auth.getUserInfo store));
                          isError := false |}).
  { unfold callTool.
    rewrite (try_catch_bind_ok _ _ _ _ _ _ (ensureClient_existing store st client Hclient)).
    cbn [String.eqb Ascii.eqb Bool.eqb].
    unfold try_catch, bind, on_client. rewrite Hrun. reflexivity. }
  rewrite Hcall. unfold Auth.getUserInfo.
  split; [intros t Ht|intros Ht]; rewrite Ht; reflexivity.
Qed.

(** X22: when both delete endpoints answer outside the success range,
    [linkedin_delete_post] answers with a text that is not flagged as an
    error and that repeats the prefix:
    [Failed to delete post: Failed to delete post: <status>]. *)
Theorem delete_failure_is_not_flagged (args : Args) (st : State)
        (client : Client.LinkedInClient) (r1 r2 : Http.Response Http.Data) :
  linkedinClient st = Some client ->
  net (Client.rest_delete_request (Client.accessToken client)
         (string_of_optional (postId args))) = Http.Responded r1 ->
  Http.ok r1 = false ->
  net (Client.ugc_delete_request (Client.accessToken client)
         (string_of_optional (postId args))) = Http.Responded r2 ->
  Http.ok r2 = false ->
  fst (callTool net store env runtime_message "linkedin_delete_post" (Some args) st)
  = Ok {| content := Text ("Failed to delete post: Failed to delete post: "
                            ++ JS.string_of_number (Http.status r2));
          isError := false |}.
Proof.
  intros Hclient H1 Hok1 H2 Hok2.
  unfold callTool.
  rewrite (try_catch_bind_ok _ _ _ _ _ _ (ensureClient_existing store st client Hclient)).
  cbn [String.eqb Ascii.eqb Bool.eqb]. rewrite destructured.
  unfold try_catch, bind, on_client, Client.deletePost, bind, Client.token_of, gets.
  cbn [Client.this Client.accessToken].
  rewrite (fetch_responded net _ _ _ H1). cbv beta iota.
  rewrite (ok_or_status r1 204) by lia. rewrite Hok1. cbv beta iota.
  cbn [Client.after_request Client.this Client.accessToken].
  rewrite (fetch_responded net _ _ _ H2). cbv beta iota.
  rewrite (ok_or_status r2 204) by lia. rewrite Hok2. reflexivity.
Qed.

(** X23: once the client exists, the stored token is not consulted again:
    for every tool but [linkedin_get_profile], which reads the stored
    identity, a call gives the same answer and sends the same requests
    whatever the token file and the clock have become, so an expired token
    keeps being used. *)
Theorem existing_client_ignores_the_store (store' : Auth.World) (name : string)
        (arguments : option Args) (st : State) (client : Client.LinkedInClient) :
  linkedinClient st = Some client ->
  name <> "linkedin_get_profile" ->
  callTool net store env runtime_message name arguments st
  = callTool net store' env runtime_message name arguments st.
Proof.
  intros Hclient Hname. apply String.eqb_neq in Hname.
  unfold callTool.
  rewrite !(try_catch_bind_ok _ _ _ _ _ _ (ensureClient_existing _ st client Hclient)).
  rewrite Hname. reflexivity.
Qed.

End ServerFacts.

(* ================================================================== *)
(** ** The further properties on concrete inputs *)

Lemma token_file_written_only_on_success_example :
  fst (Server.auth_main (Scenario.env_with [Scenario.granted])
         (Scenario.world_at 1000 Auth.Absent)) = Some 0.
Proof.
  apply (proj2 (proj2 (proj2 (token_file_written_only_on_success
                                (Scenario.env_with [Scenario.granted])
                                (Scenario.world_at 1000 Auth.Absent))))).
  eexists. reflexivity.
Defined.

Lemma serialized_parameters_shape_example :
  Trace.occurrences "#"
    (JS.params_toString (Auth.authParams (Scenario.env_with []) Scenario.credentials
                           "http://127.0.0.1:3000/callback#x"))
  = O.
Proof.
  apply (proj2 (proj2 (proj1 (serialized_parameters_shape
                                (Scenario.env_with []) Scenario.credentials "c0de"
                                "http://127.0.0.1:3000/callback#x")))).
  right. left. reflexivity.
Defined.

Lemma member_urn_is_cached_example :
  Client.getMemberUrn Scenario.all_500
    (snd (Client.getMemberUrn Scenario.anonymous_rest_me Scenario.fresh))
  = (Ok "urn:li:person:m1",
     snd (Client.getMemberUrn Scenario.anonymous_rest_me Scenario.fresh)).
Proof.
  apply (proj2 (proj2 (proj2 (member_urn_is_cached Scenario.anonymous_rest_me Scenario.fresh
                                (snd (Client.getMemberUrn Scenario.anonymous_rest_me
                                        Scenario.fresh))
                                "urn:li:person:m1" eq_refl)))).
Defined.

Lemma unresolved_identity_stops_operation_example :
  fst (Client.perform Scenario.all_500 (Client.CreatePost "hi" Client.PUBLIC) Scenario.fresh)
  = Throw (Error Client.unable_to_determine)
  /\ Client.sent (snd (Client.perform Scenario.all_500 (Client.CreatePost "hi" Client.PUBLIC)
                         Scenario.fresh))
     = Trace.identity_requests "AQX".
Proof.
  apply (unresolved_identity_stops_operation Scenario.all_500
           (Client.CreatePost "hi" Client.PUBLIC) Scenario.fresh).
  - reflexivity.
  - reflexivity.
  - intros c _. left. eexists. split; reflexivity.
Defined.

Lemma deletePost_outcome_example :
  fst (Client.deletePost Scenario.all_500 "post123" Scenario.fresh)
  = Ok {| Client.deleted := false;
          Client.delete_message := Some "Failed to delete post: 500" |}.
Proof.
  apply (proj1 (deletePost_outcome Scenario.all_500 "post123" Scenario.fresh
                  (Scenario.reply 500 [] "Internal Server Error" None)
                  (Scenario.reply 500 [] "Internal Server Error" None)
                  eq_refl eq_refl)).
Defined.

Lemma callTool_always_answers_example :
  exists result,
    fst (Server.callTool Scenario.posts_unreachable Sample.valid_store (Scenario.env_with [])
           Sample.messages "linkedin_create_post" (Some (Sample.with_text "hi"))
           Sample.serving)
    = Ok result
    /\ (Server.isError result = true ->
        exists e, result = Server.failure Sample.messages e).
Proof.
  apply (callTool_always_answers Scenario.posts_unreachable Sample.valid_store
           (Scenario.env_with []) Sample.messages "linkedin_create_post"
           (Some (Sample.with_text "hi")) Sample.serving).
Defined.

Lemma unauthenticated_call_is_refused_example :
  Auth.isAuthenticated Sample.expired_store = false
  /\ Server.callTool Scenario.all_500 Sample.expired_store (Scenario.env_with [])
       Sample.messages "linkedin_get_profile" None Sample.idle
     = (Ok (Server.failure Sample.messages
              (Error (Server.not_authenticated (Scenario.env_with [])))),
        Sample.idle).
Proof.
  split; [reflexivity|].
  apply (unauthenticated_call_is_refused Scenario.all_500 Sample.expired_store
           (Scenario.env_with []) Sample.messages "linkedin_get_profile" None
           Sample.idle); reflexivity.
Defined.

Lemma invalid_input_sends_nothing_example :
  exists result,
    fst (Server.callTool Scenario.all_500 Sample.valid_store (Scenario.env_with [])
           Sample.messages "linkedin_create_post" (Some (Sample.with_text "   "))
           Sample.serving)
    = Ok result
    /\ Server.isError result = true
    /\ Server.sent (snd (Server.callTool Scenario.all_500 Sample.valid_store
                           (Scenario.env_with []) Sample.messages "linkedin_create_post"
                           (Some (Sample.with_text "   ")) Sample.serving))
       = [].
Proof.
  apply (invalid_input_sends_nothing Scenario.all_500 Sample.valid_store
           (Scenario.env_with []) Sample.messages "linkedin_create_post"
           (Some (Sample.with_text "   ")) (Sample.with_text "   ") Sample.serving).
  left. split; [reflexivity|]. split; [reflexivity|]. left. reflexivity.
Defined.

Lemma posts_count_is_capped_example :
  Server.sent (snd (Server.callTool Scenario.all_500 Sample.valid_store (Scenario.env_with [])
                      Sample.messages "linkedin_get_posts" (Some (Sample.with_count 200))
                      Sample.serving))
  = [Client.ugc_query_request "AQX" "urn:li:person:m1" 50].
Proof.
  apply (proj2 (proj2 (proj2 (proj2 (proj1
           (posts_count_is_capped Scenario.all_500 Sample.valid_store
              (Scenario.env_with []) Sample.messages
              (Sample.with_count 200) Sample.serving
              (Client.this Scenario.identified) "urn:li:person:m1"
              eq_refl eq_refl ltac:(discriminate)
              ltac:(intros n H; injection H as <-; reflexivity))))))).
Defined.

Lemma profile_prefers_stored_identity_example :
  fst (Server.callTool Scenario.anonymous_rest_me Sample.valid_store (Scenario.env_with [])
         Sample.messages "linkedin_get_profile" (Some Sample.no_args) Sample.serving)
  = Ok {| Server.content :=
            Server.ProfileJson
              {| Client.sub := None; Client.name := None;
                 Client.given_name := None; Client.family_name := None;
                 Client.picture := None; Client.email := None;
                 Client.email_verified := None |};
          Server.isError := false |}.
Proof.
  apply (proj1 (profile_prefers_stored_identity Scenario.anonymous_rest_me Sample.valid_store
                  (Scenario.env_with []) Sample.messages (Some Sample.no_args) Sample.serving
                  (Client.this Scenario.identified)
                  (Client.profile_of_userinfo (Scenario.with_sub "m1"))
                  (Client.after_request Scenario.identified (Client.userinfo_request "AQX"))
                  eq_refl eq_refl)
           (Scenario.token_with_expiry 10) eq_refl).
Defined.

Lemma delete_failure_is_not_flagged_example :
  fst (Server.callTool Scenario.all_500 Sample.valid_store (Scenario.env_with [])
         Sample.messages "linkedin_delete_post" (Some (Sample.with_postId "post123"))
         Sample.serving)
  = Ok {| Server.content :=
            Server.Text "Failed to delete post: Failed to delete post: 500";
          Server.isError := false |}.
Proof.
  apply (delete_failure_is_not_flagged Scenario.all_500 Sample.valid_store
           (Scenario.env_with []) Sample.messages (Sample.with_postId "post123")
           Sample.serving (Client.this Scenario.identified)
           (Scenario.reply 500 [] "Internal Server Error" None)
           (Scenario.reply 500 [] "Internal Server Error" None));
    reflexivity.
Defined.

Lemma existing_client_ignores_the_store_example :
  Server.callTool Scenario.all_500 Sample.valid_store (Scenario.env_with [])
    Sample.messages "linkedin_get_connections_count" None Sample.serving
  = Server.callTool Scenario.all_500 Sample.expired_store (Scenario.env_with [])
      Sample.messages "linkedin_get_connections_count" None Sample.serving.
Proof.
  apply (existing_client_ignores_the_store Scenario.all_500 Sample.valid_store
           (Scenario.env_with []) Sample.messages Sample.expired_store
           "linkedin_get_connections_count" None Sample.serving
           (Client.this Scenario.identified)).
  - reflexivity.
  - discriminate.
Defined.

(* ================================================================== *)
(** ** What the receiver reads from the URLs that the program builds *)

Section UrlFacts.

Import Trace Url.

















End UrlFacts.

Section PathFacts.

Import Trace Url.

Ltac byte_cases a :=
  destruct a as [b0 b1 b2 b3 b4 b5 b6 b7];
  destruct b0, b1, b2, b3, b4, b5, b6, b7.

Lemma percent_decode_piece (a : ascii) (rest : string) :
  percent_decode
    ((if JS.is_alnum a || JS.mem_ascii a "-_.!~*'()"
      then String a EmptyString
      else JS.percent a) ++ rest)
  = String a (percent_decode rest).
Proof. byte_cases a; reflexivity. Qed.

Lemma percent_decode_encode (s : string) :
  percent_decode (JS.encodeURIComponent s) = s.
Proof.
  induction s as [|a s IH]; [reflexivity|].
  cbn [JS.encodeURIComponent]. rewrite percent_decode_piece, IH. reflexivity.
Qed.

Lemma safe_char_plain (a : ascii) :
  component_safe a = true ->
  Ascii.eqb a "?" || Ascii.eqb a "#" = false
  /\ Ascii.eqb a "/" = false
  /\ plain_path_char a = true.
Proof. byte_cases a; cbn; intros H; try discriminate H; repeat split. Qed.

Lemma path_pieces_plain (s : string) :
  all_chars component_safe s = true -> path_pieces s = Some [s].
Proof.
  induction s as [|a s IH]; [reflexivity|].
  cbn [all_chars path_pieces]. intros H. apply andb_true_iff in H. destruct H as [Ha Hs].
  destruct (safe_char_plain a Ha) as (H1 & H2 & H3).
  rewrite H1, (IH Hs), H2, H3. reflexivity.
Qed.

Lemma toLowerCase_empty (s : string) :
  String.eqb (JS.toLowerCase s) EmptyString = true -> s = EmptyString.
Proof. destruct s; [reflexivity|discriminate]. Qed.

Lemma single_dot_piece (a : ascii) (s : string) :
  is_single_dot
    ((if JS.is_alnum a || JS.mem_ascii a "-_.!~*'()"
      then String a EmptyString
      else JS.percent a) ++ s) = true ->
  a = "."%char /\ s = EmptyString.
Proof.
  unfold is_single_dot.
  byte_cases a; cbn; intros H; try discriminate H.
  split; [reflexivity|]. rewrite orb_false_r in H. apply toLowerCase_empty. exact H.
Qed.

Lemma encoded_empty (s : string) :
  JS.encodeURIComponent s = EmptyString -> s = EmptyString.
Proof.
  destruct s as [|a s]; [reflexivity|]. cbn [JS.encodeURIComponent].
  destruct (JS.is_alnum a || JS.mem_ascii a "-_.!~*'()"); discriminate.
Qed.

Lemma encoded_single_dot (s : string) :
  is_single_dot (JS.encodeURIComponent s) = true -> s = ".".
Proof.
  destruct s as [|a s]; [discriminate|]. cbn [JS.encodeURIComponent].
  intros H. destruct (single_dot_piece a _ H) as [-> He].
  rewrite (encoded_empty s He). reflexivity.
Qed.

Lemma double_dot_piece (a : ascii) (s : string) :
  is_double_dot
    ((if JS.is_alnum a || JS.mem_ascii a "-_.!~*'()"
      then String a EmptyString
      else JS.percent a) ++ s) = true ->
  a = "."%char /\ is_single_dot s = true.
Proof.
  unfold is_double_dot, is_single_dot.
  byte_cases a; cbn; intros H; try discriminate H.
  split; [reflexivity|]. rewrite !orb_false_r in H. exact H.
Qed.

Lemma encoded_double_dot (s : string) :
  is_double_dot (JS.encodeURIComponent s) = true -> s = "..".
Proof.
  destruct s as [|a s]; [discriminate|]. cbn [JS.encodeURIComponent].
  intros H. destruct (double_dot_piece a _ H) as [-> Hs].
  rewrite (encoded_single_dot s Hs). reflexivity.
Qed.

Lemma encoded_not_dots (s : string) :
  s <> "." -> s <> ".." ->
  is_single_dot (JS.encodeURIComponent s) = false
  /\ is_double_dot (JS.encodeURIComponent s) = false.
Proof.
  intros H1 H2. split.
  - destruct (is_single_dot (JS.encodeURIComponent s)) eqn:E; [|reflexivity].
    elim H1. apply encoded_single_dot. exact E.
  - destruct (is_double_dot (JS.encodeURIComponent s)) eqn:E; [|reflexivity].
    elim H2. apply encoded_double_dot. exact E.
Qed.

(** X10: the URLs of [deletePost] are the API origin followed by
    [/rest/posts/] or [/v2/ugcPosts/] and the percent-encoded identifier,
    which decodes back to the identifier.  For every identifier other than
    [.] and [..], the URL parser of [fetch] reads that encoded identifier
    whole, as the one last segment of the path.  For [..] and [.] it
    treats the segment as a dot segment: the request for [..] goes to
    [/rest/] (and [/v2/]), the request for [.] to [/rest/posts/] (and
    [/v2/ugcPosts/]). *)
Theorem delete_urls_shape (token postId : string) :
  (Http.url (Client.rest_delete_request token postId)
   = "https://api.linkedin.com" ++ "/rest/posts/" ++ JS.encodeURIComponent postId
   /\ Http.url (Client.ugc_delete_request token postId)
      = "https://api.linkedin.com" ++ "/v2/ugcPosts/" ++ JS.encodeURIComponent postId)
  /\ percent_decode (JS.encodeURIComponent postId) = postId
  /\ (postId <> "." -> postId <> ".." ->
      path_segments ("/rest/posts/" ++ JS.encodeURIComponent postId)
      = Some ["rest"; "posts"; JS.encodeURIComponent postId]
      /\ path_segments ("/v2/ugcPosts/" ++ JS.encodeURIComponent postId)
         = Some ["v2"; "ugcPosts"; JS.encodeURIComponent postId])
  /\ (path_segments ("/rest/posts/" ++ JS.encodeURIComponent "..") = Some ["rest"; EmptyString]
      /\ path_segments ("/v2/ugcPosts/" ++ JS.encodeURIComponent "..") = Some ["v2"; EmptyString])
  /\ (path_segments ("/rest/posts/" ++ JS.encodeURIComponent ".") = Some ["rest"; "posts"; EmptyString]
      /\ path_segments ("/v2/ugcPosts/" ++ JS.encodeURIComponent ".")
         = Some ["v2"; "ugcPosts"; EmptyString]).
Proof.
  split; [split; reflexivity|].
  split; [apply percent_decode_encode|].
  split; [|split; split; reflexivity].
  intros H1 H2.
  destruct (encoded_not_dots postId H1 H2) as [Hs Hd].
  pose proof (path_pieces_plain _ (encodeURIComponent_safe postId)) as Hp.
  split; cbn; rewrite Hp; cbn; rewrite Hd, Hs; reflexivity.
Qed.

End PathFacts.


Lemma delete_urls_shape_example :
  Url.path_segments ("/rest/posts/" ++ JS.encodeURIComponent "a/../b?c")
  = Some ["rest"; "posts"; JS.encodeURIComponent "a/../b?c"].
Proof.
  apply (proj1 (proj1 (proj2 (proj2 (delete_urls_shape "AQX" "a/../b?c")))
                  ltac:(discriminate) ltac:(discriminate))).
Defined.
